(** * geo-chrono: GPS point collections and CSV ingestion

    A shallow embedding of the [gps] package (point.go) and of the
    [csv] package (reader.go) of geo-chrono, with the properties of the
    ingestion pipeline stated and proved over it.

    Conventions of the embedding:
    - a Go [string] is a [String.string] (a sequence of bytes);
    - a Go [int] is a [Z]; slice lengths are [Z.of_nat (length _)];
    - a slice is a [list]; an in-place update returns the new contents;
    - [map[string]bool] is a [gmap string bool], a missing key reading as
      [false];
    - a function returning [(T, error)] returns an [outcome T]; an index
      out of range is the third outcome, [Panic];
    - [fmt.Printf] of a warning appends to an explicit log;
    - functions of the Go standard library whose text is not part of the
      repository ([time.Parse], [strconv.ParseFloat], [strings.ToLower],
      [strings.TrimSpace], [fmt.Sprintf], [sort.Slice]) are parameters;
      [sort.Slice] is given besides as the library has it, in [gosort]. *)

From Stdlib Require Import ZArith Ascii String Floats DecimalString.
From stdpp Require Import gmap strings list sorting.

Local Open Scope string_scope.
Local Open Scope list_scope.
Local Open Scope Z_scope.

(** ** The [time] package: instants *)

Module time.

(** [*time.Location]: UTC, the local zone, or a fixed offset. *)
Inductive Location : Type :=
| UTC
| Local
| FixedZone (name : string) (offset : Z).

(** [time.Time] without a monotonic clock reading (neither
    [time.Parse] nor [time.Unix] nor the zero value carries one):
    seconds since January 1, year 1 00:00:00 UTC, nanoseconds within
    the second, and the location used for display. *)
Record Time : Type := mkTime { sec : Z; nsec : Z; loc : Location }.

(** [time.Time{}] *)
Definition zero : Time := {| sec := 0; nsec := 0; loc := UTC |}.

(** [t.Before(u)] *)
Definition Before (t u : Time) : bool :=
  (sec t <? sec u) || ((sec t =? sec u) && (nsec t <? nsec u)).

(** [t.After(u)] *)
Definition After (t u : Time) : bool :=
  (sec t >? sec u) || ((sec t =? sec u) && (nsec t >? nsec u)).

(** Seconds from year 1 to the Unix epoch. *)
Definition unixToInternal : Z := 62135596800.

(** int64 arithmetic wraps around. *)
Definition wrap64 (z : Z) : Z := (z + 2 ^ 63) mod 2 ^ 64 - 2 ^ 63.

(** [time.Unix(sec, 0)] *)
Definition Unix (s : Z) : Time :=
  {| sec := wrap64 (s + unixToInternal); nsec := 0; loc := Local |}.

End time.

(** ** Package [gps] (point.go) *)

Module gps.

Record Point : Type := mkPoint {
  Timestamp : time.Time;
  Latitude : float;
  Longitude : float;
  Title : string;
  Description : string
}.

Definition Points : Type := list Point.

(** The comparison closure handed to [sort.Slice]:
    [p[i].Timestamp.Before(p[j].Timestamp)]. *)
Definition lessByTimestamp (a b : Point) : bool :=
  time.Before (Timestamp a) (Timestamp b).

Definition IsEmpty (p : Points) : bool := Nat.eqb (length p) 0.

Definition First (p : Points) : option Point := head p.

Definition Last (p : Points) : option Point := last p.

Section Runtime.

(** [sort.Slice(x, less)], as the contents of [x] afterwards; [less]
    is given on elements rather than on positions. *)
Variable sort_Slice : (Point → Point → bool) → Points → Points.

(** [fmt.Sprintf("%.6f", x)] *)
Variable Sprintf_6f : float → string.

Definition SortByTimestamp (p : Points) : Points :=
  sort_Slice lessByTimestamp p.

(** [fmt.Sprintf("%.6f,%.6f", point.Latitude, point.Longitude)] *)
Definition coordKey (point : Point) : string :=
  Sprintf_6f (Latitude point) +:+ "," +:+ Sprintf_6f (Longitude point).

(** The loop of [RemoveDuplicates], with [seen] and [result] as
    loop state. *)
Fixpoint RemoveDuplicates_loop (seen : gmap string bool) (result : Points)
    (p : Points) : Points :=
  match p with
  | [] => result
  | point :: rest =>
      let key := coordKey point in
      if negb (default false (seen !! key))
      then RemoveDuplicates_loop (<[key := true]> seen) (result ++ [point]) rest
      else RemoveDuplicates_loop seen result rest
  end.

Definition RemoveDuplicates (p : Points) : Points :=
  RemoveDuplicates_loop ∅ [] p.

(** The loop of [TimeRange] over [p[1:]]. *)
Fixpoint TimeRange_loop (start end_ : time.Time) (rest : Points)
    : time.Time * time.Time :=
  match rest with
  | [] => (start, end_)
  | point :: rest' =>
      let start' :=
        if time.Before (Timestamp point) start then Timestamp point else start in
      let end' :=
        if time.After (Timestamp point) end_ then Timestamp point else end_ in
      TimeRange_loop start' end' rest'
  end.

Definition TimeRange (p : Points) : time.Time * time.Time :=
  match p with
  | [] => (time.zero, time.zero)
  | p0 :: rest => TimeRange_loop (Timestamp p0) (Timestamp p0) rest
  end.

End Runtime.

(** The loop of [Bounds] over [p[1:]]; [x < y] and [x > y] on [float64]
    are the IEEE 754 comparisons. *)
Fixpoint Bounds_loop (minLat maxLat minLng maxLng : float) (rest : Points)
    : float * float * float * float :=
  match rest with
  | [] => (minLat, maxLat, minLng, maxLng)
  | point :: rest' =>
      let minLat := if PrimFloat.ltb (Latitude point) minLat
                    then Latitude point else minLat in
      let maxLat := if PrimFloat.ltb maxLat (Latitude point)
                    then Latitude point else maxLat in
      let minLng := if PrimFloat.ltb (Longitude point) minLng
                    then Longitude point else minLng in
      let maxLng := if PrimFloat.ltb maxLng (Longitude point)
                    then Longitude point else maxLng in
      Bounds_loop minLat maxLat minLng maxLng rest'
  end.

(** [Bounds]: (minLat, maxLat, minLng, maxLng). *)
Definition Bounds (p : Points) : float * float * float * float :=
  match p with
  | [] => (0%float, 0%float, 0%float, 0%float)
  | p0 :: rest =>
      Bounds_loop (Latitude p0) (Latitude p0) (Longitude p0) (Longitude p0) rest
  end.

End gps.

(** ** Package [strconv]: [ParseInt(s, 10, 64)] *)

Module strconv.

Definition isDigit (c : ascii) : bool :=
  ((48 <=? N_of_ascii c) && (N_of_ascii c <=? 57))%N.

Definition digitVal (c : ascii) : Z := Z.of_N (N_of_ascii c) - 48.

Definition maxUint64 : Z := 2 ^ 64 - 1.

(** The digit loop of [ParseUint(s, 10, 64)]: [None] on a byte that is
    not a decimal digit and on overflow of 64 bits. *)
Fixpoint ParseUint_loop (n : Z) (s : string) : option Z :=
  match s with
  | EmptyString => Some n
  | String c rest =>
      if isDigit c then
        if n >=? maxUint64 / 10 + 1 then None
        else
          let n1 := n * 10 + digitVal c in
          if n1 >? maxUint64 then None else ParseUint_loop n1 rest
      else None
  end.

Definition ParseUint (s : string) : option Z :=
  match s with
  | EmptyString => None
  | _ => ParseUint_loop 0 s
  end.

(** [strconv.ParseInt(s, 10, 64)], [None] standing for [err != nil]. *)
Definition ParseInt (s : string) : option Z :=
  match s with
  | EmptyString => None
  | String c rest =>
      let neg := Ascii.eqb c "-" in
      let s' := if Ascii.eqb c "+" || neg then rest else s in
      match ParseUint s' with
      | None => None
      | Some un =>
          let cutoff := 2 ^ 63 in
          if negb neg && (un >=? cutoff) then None
          else if neg && (un >? cutoff) then None
          else Some (if neg then - un else un)
      end
  end.

End strconv.

(** ** Package [strings]: prefixes and suffixes, byte by byte *)

Module gostrings.

(** [s[n:]] *)
Fixpoint dropBytes (n : nat) (s : string) : string :=
  match n, s with
  | S n', String _ rest => dropBytes n' rest
  | _, _ => s
  end.

(** [s[:n]] *)
Fixpoint takeBytes (n : nat) (s : string) : string :=
  match n, s with
  | S n', String c rest => String c (takeBytes n' rest)
  | _, _ => EmptyString
  end.

(** [strings.HasPrefix(s, prefix)] *)
Definition HasPrefix (s prefix : string) : bool :=
  (String.length prefix <=? String.length s)%nat
  && String.eqb (takeBytes (String.length prefix) s) prefix.

(** [strings.HasSuffix(s, suffix)] *)
Definition HasSuffix (s suffix : string) : bool :=
  (String.length suffix <=? String.length s)%nat
  && String.eqb (dropBytes (String.length s - String.length suffix) s) suffix.

(** [strings.TrimPrefix(s, prefix)] *)
Definition TrimPrefix (s prefix : string) : string :=
  if HasPrefix s prefix then dropBytes (String.length prefix) s else s.

(** [strings.TrimSuffix(s, suffix)] *)
Definition TrimSuffix (s suffix : string) : string :=
  if HasSuffix s suffix
  then takeBytes (String.length s - String.length suffix) s else s.

End gostrings.

(** ** Package [config]: the two structures read by the CSV reader *)

Module config.

Record CSVFormatConfig : Type := mkCSVFormatConfig {
  TimestampColumn : string;
  LatitudeColumn : string;
  LongitudeColumn : string;
  TitleColumn : string;
  DescriptionColumn : string;
  CategoryColumn : string;
  HasHeader : bool;
  Delimiter : string;
  SkipRows : Z
}.

Record ProcessingConfig : Type := mkProcessingConfig {
  RemoveDuplicates : bool;
  Timezone : string;
  TimestampFormats : list string
}.

Record GoogleMapsConfig : Type := mkGoogleMapsConfig {
  APIKey : string;
  APIVersion : string;
  Libraries : list string
}.

Record InputConfig : Type := mkInputConfig {
  CSVFile : string;
  CSVFormat : CSVFormatConfig
}.

Record OutputConfig : Type := mkOutputConfig {
  HTMLFile : string;
  Debug : bool;
  ExportKML : bool;
  KMLFile : string
}.

Record LoggingConfig : Type := mkLoggingConfig {
  Level : string;
  File : string;
  Verbose : bool
}.

(** [Config], with the structures that the functions below and [main]
    read or write; of [MapConfig] the title, the styling structures not
    at all. *)
Record Config : Type := mkConfig {
  GoogleMaps : GoogleMapsConfig;
  Input : InputConfig;
  Output : OutputConfig;
  MapTitle : string;
  Processing : ProcessingConfig;
  Logging : LoggingConfig
}.

(** The errors of [ResolveAPIKey] and [Validate], one constructor per
    message. *)
Inductive configError : Type :=
| ErrAPIKeyRequired               (* google Maps API key is required (use 'DEMO' for demonstration) *)
| ErrEnvNotSet (envVar : string)  (* environment variable envVar is not set *)
| ErrCSVFileRequired              (* input CSV file is required *)
| ErrHTMLFileRequired.            (* output HTML file is required *)

Definition withAPIKey (c : Config) (key : string) : Config :=
  mkConfig
    (mkGoogleMapsConfig key (APIVersion (GoogleMaps c)) (Libraries (GoogleMaps c)))
    (Input c) (Output c) (MapTitle c) (Processing c) (Logging c).

Definition withCSVFile (c : Config) (file : string) : Config :=
  mkConfig (GoogleMaps c) (mkInputConfig file (CSVFormat (Input c)))
    (Output c) (MapTitle c) (Processing c) (Logging c).

Definition withHTMLFile (c : Config) (file : string) : Config :=
  mkConfig (GoogleMaps c) (Input c)
    (mkOutputConfig file (Debug (Output c)) (ExportKML (Output c))
       (KMLFile (Output c)))
    (MapTitle c) (Processing c) (Logging c).

Definition withMapTitle (c : Config) (title : string) : Config :=
  mkConfig (GoogleMaps c) (Input c) (Output c) title (Processing c) (Logging c).

(** [c.ResolveAPIKey()]: the configuration afterwards and the error
    returned; [getenv] is [os.Getenv]. *)
Definition ResolveAPIKey (getenv : string → string) (c : Config)
    : Config * option configError :=
  let key := APIKey (GoogleMaps c) in
  if String.eqb key "" then (c, Some ErrAPIKeyRequired)
  else if String.eqb key "DEMO" then (c, None)
  else if gostrings.HasPrefix key "${" && gostrings.HasSuffix key "}" then
    let envVar := gostrings.TrimSuffix (gostrings.TrimPrefix key "${") "}" in
    let envValue := getenv envVar in
    if negb (String.eqb envValue "") then (withAPIKey c envValue, None)
    else (c, Some (ErrEnvNotSet envVar))
  else (c, None).

(** [c.Validate()] *)
Definition Validate (c : Config) : option configError :=
  if String.eqb (APIKey (GoogleMaps c)) "" then Some ErrAPIKeyRequired
  else if String.eqb (CSVFile (Input c)) "" then Some ErrCSVFileRequired
  else if String.eqb (HTMLFile (Output c)) "" then Some ErrHTMLFileRequired
  else None.

End config.

(** ** Results and errors *)

(** The errors built with [fmt.Errorf] in reader.go, one constructor per
    message. *)
Inductive error : Type :=
| ErrNoDataRows                      (* CSV file has no data rows *)
| ErrNeedHeaderAndDataRow            (* CSV file must have at least a header and one data row *)
| ErrMissingColumns                  (* CSV must contain timestamp, latitude, and longitude columns *)
| ErrInsufficientColumns             (* insufficient columns *)
| ErrCannotParseTimestamp (s : string)               (* cannot parse timestamp format: s *)
| ErrInvalidTimestamp (cell : string) (cause : error) (* invalid timestamp 'cell': cause *)
| ErrInvalidLatitude (cell : string)                 (* invalid latitude 'cell': ... *)
| ErrInvalidLongitude (cell : string).               (* invalid longitude 'cell': ... *)

(** The named failure conditions of the specification. *)
Inductive condition : Type :=
| EmptyOrInsufficientData
| MissingRequiredColumn
| InsufficientColumns
| UnparseableTimestamp
| InvalidTimestamp
| InvalidCoordinate.

Definition conditionOf (e : error) : condition :=
  match e with
  | ErrNoDataRows | ErrNeedHeaderAndDataRow => EmptyOrInsufficientData
  | ErrMissingColumns => MissingRequiredColumn
  | ErrInsufficientColumns => InsufficientColumns
  | ErrCannotParseTimestamp _ => UnparseableTimestamp
  | ErrInvalidTimestamp _ _ => InvalidTimestamp
  | ErrInvalidLatitude _ | ErrInvalidLongitude _ => InvalidCoordinate
  end.

(** What a call produces: a value, a returned error, or a run-time panic
    (slice index out of range). *)
Inductive outcome (A : Type) : Type :=
| Ok (a : A)
| Err (e : error)
| Panic.

Arguments Ok {A} a.
Arguments Err {A} e.
Arguments Panic {A}.

#[global] Instance outcome_ret : MRet outcome := @Ok.

#[global] Instance outcome_bind : MBind outcome := λ A B k m,
  match m with
  | Ok a => k a
  | Err e => Err e
  | Panic => Panic
  end.

Definition isOk {A : Type} (m : outcome A) : bool :=
  match m with Ok _ => true | _ => false end.

Definition isErr {A : Type} (m : outcome A) : bool :=
  match m with Err _ => true | _ => false end.

(** [s[i]] for a slice [s] and an [int] index. *)
Definition index {A : Type} (s : list A) (i : Z) : outcome A :=
  if i <? 0 then Panic
  else match s !! Z.to_nat i with
       | Some a => Ok a
       | None => Panic
       end.

Definition len {A : Type} (s : list A) : Z := Z.of_nat (length s).


(** ** The standard-library functions the CSV reader calls *)

Class GoLib : Type := {
  (** [strings.ToLower] *)
  strings_ToLower : string → string;
  (** [strings.TrimSpace] *)
  strings_TrimSpace : string → string;
  (** [time.Parse(layout, value)], [None] standing for [err != nil] *)
  time_Parse : string → string → option time.Time;
  (** [strconv.ParseFloat(s, 64)], [None] standing for [err != nil] *)
  strconv_ParseFloat : string → option float;
  (** [fmt.Sprintf("%.6f", x)] *)
  fmt_Sprintf_6f : float → string
}.

(** ** Package [csv] (reader.go) *)

Module csv.

Record Reader : Type := NewReader {
  config : config.CSVFormatConfig;
  processing : config.ProcessingConfig
}.

Record columnIndices : Type := mkColumnIndices {
  timestamp : Z;
  latitude : Z;
  longitude : Z;
  title : Z;
  description : Z
}.

(** A line printed by [parseRecords]:
    [Warning: Skipping row <rowNum> - <err>]. *)
Record warning : Type := mkWarning { rowNum : Z; reason : error }.

(** The indices before resolution: every field absent. *)
Definition unresolvedIndices : columnIndices :=
  mkColumnIndices (-1) (-1) (-1) (-1) (-1).

Definition timestampAliases : list string := ["timestamp"; "time"; "datetime"].
Definition latitudeAliases : list string := ["latitude"; "lat"].
Definition longitudeAliases : list string := ["longitude"; "lon"; "lng"].

(** The fallback layouts of [parseDefaultTimestamp], in its order. *)
Definition defaultFormats : list string :=
  [ "2006-01-02T15:04:05Z";
    "2006-01-02T15:04:05-07:00";
    "2006-01-02 15:04:05";
    "01/02/2006 15:04:05";
    "02/01/2006 15:04:05";
    "2006-01-02T15:04:05.000Z";
    "2006-01-02" ].

Section Reader.

Context `{!GoLib}.
Variable r : Reader.

(** The loop [for _, defaultName := range defaults]. *)
Fixpoint matchesDefaults (colName : string) (defaults : list string) : bool :=
  match defaults with
  | [] => false
  | defaultName :: rest =>
      if String.eqb colName defaultName then true
      else matchesDefaults colName rest
  end.

Definition matchesColumn (colName configName : string) (defaults : list string)
    : bool :=
  if negb (String.eqb configName "")
  then String.eqb colName (strings_ToLower configName)
  else matchesDefaults colName defaults.

(** One iteration of the header loop of [findColumnIndices]. *)
Definition headerStep (i : Z) (col : string) (indices : columnIndices)
    : columnIndices :=
  let cfg := config r in
  let colLower := strings_ToLower col in
  let indices :=
    if matchesColumn colLower (config.TimestampColumn cfg) timestampAliases
    then mkColumnIndices i (latitude indices) (longitude indices)
           (title indices) (description indices)
    else indices in
  let indices :=
    if matchesColumn colLower (config.LatitudeColumn cfg) latitudeAliases
    then mkColumnIndices (timestamp indices) i (longitude indices)
           (title indices) (description indices)
    else indices in
  let indices :=
    if matchesColumn colLower (config.LongitudeColumn cfg) longitudeAliases
    then mkColumnIndices (timestamp indices) (latitude indices) i
           (title indices) (description indices)
    else indices in
  let indices :=
    if negb (String.eqb (config.TitleColumn cfg) "")
       && String.eqb colLower (strings_ToLower (config.TitleColumn cfg))
    then mkColumnIndices (timestamp indices) (latitude indices)
           (longitude indices) i (description indices)
    else indices in
  if negb (String.eqb (config.DescriptionColumn cfg) "")
     && String.eqb colLower (strings_ToLower (config.DescriptionColumn cfg))
  then mkColumnIndices (timestamp indices) (latitude indices)
         (longitude indices) (title indices) i
  else indices.

(** [for i, col := range header], from position [i] on. *)
Fixpoint headerLoop (i : Z) (header : list string) (indices : columnIndices)
    : columnIndices :=
  match header with
  | [] => indices
  | col :: rest => headerLoop (i + 1) rest (headerStep i col indices)
  end.

(** The positional defaults of a table without header. *)
Definition positionalIndices (records : list (list string)) : columnIndices :=
  let row0 := match records with [] => 0 | row :: _ => len row end in
  let has := 0 <? len records in
  mkColumnIndices 0 1 2
    (if has && (3 <? row0) then 3 else -1)
    (if has && (4 <? row0) then 4 else -1).

Definition findColumnIndices (records : list (list string))
    : outcome columnIndices :=
  let indices :=
    match config.HasHeader (config r), records with
    | true, header :: _ => headerLoop 0 header unresolvedIndices
    | _, _ => positionalIndices records
    end in
  if (timestamp indices =? -1) || (latitude indices =? -1)
     || (longitude indices =? -1)
  then Err ErrMissingColumns
  else Ok indices.

(** The loop [for _, format := range formats] with its early return. *)
Fixpoint tryFormats (formats : list string) (s : string) : option time.Time :=
  match formats with
  | [] => None
  | format :: rest =>
      match time_Parse format s with
      | Some t => Some t
      | None => tryFormats rest s
      end
  end.

Definition parseDefaultTimestamp (s : string) : outcome time.Time :=
  match tryFormats defaultFormats s with
  | Some t => Ok t
  | None =>
      match strconv.ParseInt s with
      | Some unix => Ok (time.Unix unix)
      | None => Err (ErrCannotParseTimestamp s)
      end
  end.

Definition parseTimestamp (s : string) : outcome time.Time :=
  let s := strings_TrimSpace s in
  match tryFormats (config.TimestampFormats (processing r)) s with
  | Some t => Ok t
  | None => parseDefaultTimestamp s
  end.

(** [fmt.Errorf("... %w", err)] around a failed call. *)
Definition wrapErr {A : Type} (wrap : error → error) (m : outcome A) : outcome A :=
  match m with
  | Err e => Err (wrap e)
  | _ => m
  end.

Definition parseFloatOr (e : error) (s : string) : outcome float :=
  match strconv_ParseFloat (strings_TrimSpace s) with
  | Some x => Ok x
  | None => Err e
  end.

Definition parseRecord (record : list string) (indices : columnIndices)
    (rowNum : Z) : outcome gps.Point :=
  if (len record <=? timestamp indices) || (len record <=? latitude indices)
     || (len record <=? longitude indices)
  then Err ErrInsufficientColumns
  else
    tsCell ← index record (timestamp indices);
    ts ← wrapErr (ErrInvalidTimestamp tsCell) (parseTimestamp tsCell);
    latCell ← index record (latitude indices);
    lat ← parseFloatOr (ErrInvalidLatitude latCell) latCell;
    lngCell ← index record (longitude indices);
    lng ← parseFloatOr (ErrInvalidLongitude lngCell) lngCell;
    pointTitle ←
      (if negb (title indices =? -1) && (title indices <? len record)
       then cell ← index record (title indices); Ok (strings_TrimSpace cell)
       else Ok "");
    pointDescription ←
      (if negb (description indices =? -1) && (description indices <? len record)
       then cell ← index record (description indices); Ok (strings_TrimSpace cell)
       else Ok "");
    Ok (gps.mkPoint ts lat lng pointTitle pointDescription).

(** The loop [for i, record := range records[startRow:]] from position
    [i] on, with the points and the warnings accumulated so far. *)
Fixpoint parseRows (indices : columnIndices) (startRow i : Z)
    (rows : list (list string)) (points : gps.Points) (log : list warning)
    : outcome (gps.Points * list warning) :=
  match rows with
  | [] => Ok (points, log)
  | record :: rest =>
      match parseRecord record indices (i + startRow + 1) with
      | Ok point => parseRows indices startRow (i + 1) rest (points ++ [point]) log
      | Err e =>
          parseRows indices startRow (i + 1) rest points
            (log ++ [mkWarning (i + startRow + 1) e])
      | Panic => Panic
      end
  end.

(** [records[n:]] for [0 <= n <= len(records)]. *)
Definition sliceFrom {A : Type} (s : list A) (n : Z) : list A :=
  drop (Z.to_nat n) s.

(** The rows left after the skip step of [parseRecords]. *)
Definition skipRows (records : list (list string)) : list (list string) :=
  if (0 <? config.SkipRows (config r)) && (config.SkipRows (config r) <? len records)
  then sliceFrom records (config.SkipRows (config r))
  else records.

(** [parseRecords]: the collection returned and the warnings printed. *)
Definition parseRecords (records : list (list string))
    : outcome (gps.Points * list warning) :=
  let records := skipRows records in
  if len records <? 1 then Err ErrNoDataRows
  else if config.HasHeader (config r) && (len records <? 2)
  then Err ErrNeedHeaderAndDataRow
  else
    let startRow := if config.HasHeader (config r) then 1 else 0 in
    colIndices ← findColumnIndices records;
    '(points, log) ← parseRows colIndices startRow 0 (sliceFrom records startRow) [] [];
    let points :=
      if config.RemoveDuplicates (processing r)
      then gps.RemoveDuplicates fmt_Sprintf_6f points
      else points in
    Ok (points, log).

End Reader.

(** What [os.Open] and [ReadAll] give for a file name and a delimiter:
    the file does not open, its content is not CSV, or its records. *)
Inductive fileContent : Type :=
| CannotOpen
| CannotRead
| Records (records : list (list string)).

(** The errors of [ReadFile]. *)
Inductive readError : Type :=
| ErrCannotOpenFile (filename : string)   (* cannot open file filename: ... *)
| ErrCannotReadCSV                        (* cannot read CSV: ... *)
| ErrParse (e : error).

Inductive readResult : Type :=
| ReadOk (points : gps.Points) (log : list warning)
| ReadErr (e : readError)
| ReadPanic.

(** [r.ReadFile(filename)]; [readAll] stands for the file system and
    [encoding/csv], the delimiter being the first byte of the configured
    one when there is one. *)
Definition ReadFile `{!GoLib} (r : Reader)
    (readAll : string → option ascii → fileContent) (filename : string)
    : readResult :=
  let comma :=
    match config.Delimiter (config r) with
    | EmptyString => None
    | String c _ => Some c
    end in
  match readAll filename comma with
  | CannotOpen => ReadErr (ErrCannotOpenFile filename)
  | CannotRead => ReadErr ErrCannotReadCSV
  | Records records =>
      match parseRecords r records with
      | Ok (points, log) => ReadOk points log
      | Err e => ReadErr (ErrParse e)
      | Panic => ReadPanic
      end
  end.

End csv.

(** ** The command (main.go) *)

Module app.

Record Flags : Type := mkFlags {
  ConfigFile : string;
  CSVFile : string;
  APIKey : string;
  Output : string;
  Title : string
}.

(** [overrideConfigWithFlags(cfg, flags)]: the configuration afterwards. *)
Definition overrideConfigWithFlags (getenv : string → string)
    (cfg : config.Config) (flags : Flags) : config.Config :=
  let cfg :=
    if negb (String.eqb (CSVFile flags) "")
    then config.withCSVFile cfg (CSVFile flags) else cfg in
  let cfg :=
    if negb (String.eqb (APIKey flags) "")
    then config.withAPIKey cfg (APIKey flags)
    else if String.eqb (config.APIKey (config.GoogleMaps cfg)) ""
            || String.eqb (config.APIKey (config.GoogleMaps cfg))
                 "${GOOGLE_MAPS_API_KEY}"
    then
      let envKey := getenv "GOOGLE_MAPS_API_KEY" in
      if negb (String.eqb envKey "") then config.withAPIKey cfg envKey else cfg
    else cfg in
  let cfg :=
    if negb (String.eqb (Output flags) "")
    then config.withHTMLFile cfg (Output flags) else cfg in
  if negb (String.eqb (Title flags) "")
  then config.withMapTitle cfg (Title flags) else cfg.

(** How [main] ends: one of its [log.Fatal] calls, a panic, or the map
    generated from the points handed to the generator. *)
Inductive exit : Type :=
| FatalLoad
| FatalResolveAPIKey (e : config.configError)
| FatalValidate (e : config.configError)
| FatalReadCSV (e : csv.readError)
| FatalNoPoints
| FatalGenerate
| Panicked
| Generated (cfg : config.Config) (points : gps.Points) (outputFile : string).

(** [main], from the parsed flags on. [load] is [config.Load],
    [generate] tells whether [generator.Generate] returns without error;
    what is printed is left out. *)
Definition main `{!GoLib} (load : string → option config.Config)
    (getenv : string → string)
    (readAll : string → option ascii → csv.fileContent)
    (sort_Slice : (gps.Point → gps.Point → bool) → gps.Points → gps.Points)
    (generate : config.Config → gps.Points → string → bool)
    (flags : Flags) : exit :=
  match load (ConfigFile flags) with
  | None => FatalLoad
  | Some cfg =>
      let cfg := overrideConfigWithFlags getenv cfg flags in
      match config.ResolveAPIKey getenv cfg with
      | (_, Some e) => FatalResolveAPIKey e
      | (cfg, None) =>
          match config.Validate cfg with
          | Some e => FatalValidate e
          | None =>
              let reader :=
                csv.NewReader (config.CSVFormat (config.Input cfg))
                  (config.Processing cfg) in
              match csv.ReadFile reader readAll (config.CSVFile (config.Input cfg)) with
              | csv.ReadErr e => FatalReadCSV e
              | csv.ReadPanic => Panicked
              | csv.ReadOk points _ =>
                  if gps.IsEmpty points then FatalNoPoints
                  else
                    let points := gps.SortByTimestamp sort_Slice points in
                    if generate cfg points (config.HTMLFile (config.Output cfg))
                    then Generated cfg points (config.HTMLFile (config.Output cfg))
                    else FatalGenerate
              end
          end
      end
  end.

End app.


(** ** Package [sort]: [sort.Slice] (sort/slice.go, sort/zsortfunc.go)

    [SortByTimestamp] hands the slice to [sort.Slice] of the Go standard
    library; the README asks for Go 1.21 or later, where [sort.Slice] is
    the pattern-defeating quicksort [pdqsort_func]. The library reaches
    the slice through two operations only, [Less] on two indices (the
    closure of the caller, which reads the slice as it then stands) and
    [Swap]. A loop of the library becomes a recursion on the number of
    rounds its index has left, named at each function. *)

Module gosort.

Inductive sortedHint : Type :=
| unknownHint
| increasingHint
| decreasingHint.

Section Slice.

Context {A : Type}.

(** [Next] of [xorshift], the pseudo-random sequence of
    [breakPatterns_func]: from one state of the generator to the next,
    which is also the number returned. *)
Variable xorshift_Next : Z → Z.

(** The order of the caller, on elements: the closure handed to
    [sort.Slice] is [λ i j, less data[i] data[j]]. *)
Variable less : A → A → bool.

Definition at_ (data : list A) (i : Z) : option A :=
  if i <? 0 then None else data !! Z.to_nat i.

(** [data.Less(i, j)]; every call below has both indices within the
    slice. *)
Definition Less (data : list A) (i j : Z) : bool :=
  match at_ data i, at_ data j with
  | Some x, Some y => less x y
  | _, _ => false
  end.

(** [data.Swap(i, j)]. *)
Definition Swap (data : list A) (i j : Z) : list A :=
  match at_ data i, at_ data j with
  | Some x, Some y => <[Z.to_nat j := x]> (<[Z.to_nat i := y]> data)
  | _, _ => data
  end.

(** [for j := i; j > a && data.Less(j, j-1); j-- { data.Swap(j, j-1) }],
    by recursion on [j - a]. *)
Fixpoint insertionSort_inner (k : nat) (data : list A) (a : Z) : list A :=
  match k with
  | O => data
  | S k' =>
    let j := a + Z.of_nat k in
    if Less data j (j - 1)
    then insertionSort_inner k' (Swap data j (j - 1)) a
    else data
  end.

(** [for i := a + 1; i < b; i++ { ... }], by recursion on [b - i]. *)
Fixpoint insertionSort_outer (n : nat) (data : list A) (a i : Z) : list A :=
  match n with
  | O => data
  | S n' =>
    insertionSort_outer n' (insertionSort_inner (Z.to_nat (i - a)) data a) a (i + 1)
  end.

(** [insertionSort_func] sorts [data[a:b]] using insertion sort. *)
Definition insertionSort_func (data : list A) (a b : Z) : list A :=
  insertionSort_outer (Z.to_nat (b - (a + 1))) data a (a + 1).

(** The loop of [siftDown_func]; [root] grows at every round and the loop
    ends when [2*root + 1 >= hi], so [hi - root] rounds are enough. *)
Fixpoint siftDown_loop (n : nat) (data : list A) (root hi first : Z) : list A :=
  match n with
  | O => data
  | S n' =>
    let child := 2 * root + 1 in
    if child >=? hi then data
    else
      let child :=
        if (child + 1 <? hi) && Less data (first + child) (first + child + 1)
        then child + 1 else child in
      if negb (Less data (first + root) (first + child)) then data
      else siftDown_loop n' (Swap data (first + root) (first + child)) child hi first
  end.

(** [siftDown_func] implements the heap property on [data[lo:hi]]. *)
Definition siftDown_func (data : list A) (lo hi first : Z) : list A :=
  siftDown_loop (Z.to_nat (hi - lo)) data lo hi first.

(** [for i := (hi - 1) / 2; i >= 0; i-- { siftDown_func(data, i, hi, first) }],
    by recursion on [i + 1]. *)
Fixpoint heapSort_build (n : nat) (data : list A) (hi first : Z) : list A :=
  match n with
  | O => data
  | S n' => heapSort_build n' (siftDown_func data (Z.of_nat n') hi first) hi first
  end.

(** [for i := hi - 1; i >= 0; i-- { data.Swap(first, first+i);
    siftDown_func(data, lo, i, first) }], by recursion on [i + 1]. *)
Fixpoint heapSort_pop (n : nat) (data : list A) (lo first : Z) : list A :=
  match n with
  | O => data
  | S n' =>
    let i := Z.of_nat n' in
    heapSort_pop n' (siftDown_func (Swap data first (first + i)) lo i first) lo first
  end.

Definition heapSort_func (data : list A) (a b : Z) : list A :=
  let first := a in
  let lo := 0 in
  let hi := b - a in
  let data := heapSort_build (Z.to_nat (Z.quot (hi - 1) 2 + 1)) data hi first in
  heapSort_pop (Z.to_nat hi) data lo first.

(** [for i <= j && data.Less(i, a) { i++ }], by recursion on [j + 1 - i]. *)
Fixpoint partition_up (n : nat) (data : list A) (a i : Z) : Z :=
  match n with
  | O => i
  | S n' => if Less data i a then partition_up n' data a (i + 1) else i
  end.

(** [for i <= j && !data.Less(j, a) { j-- }], by recursion on [j + 1 - i]. *)
Fixpoint partition_down (n : nat) (data : list A) (a j : Z) : Z :=
  match n with
  | O => j
  | S n' => if negb (Less data j a) then partition_down n' data a (j - 1) else j
  end.

(** The closing loop of [partition_func]; every round but the last
    brings [i] and [j] closer by two, so [j + 2 - i] rounds are enough. *)
Fixpoint partition_loop (n : nat) (data : list A) (a i j : Z) : list A * Z :=
  match n with
  | O => (data, j)
  | S n' =>
    let i := partition_up (Z.to_nat (j + 1 - i)) data a i in
    let j := partition_down (Z.to_nat (j + 1 - i)) data a j in
    if i >? j then (data, j)
    else partition_loop n' (Swap data i j) a (i + 1) (j - 1)
  end.

(** [partition_func] does one quicksort partition: the new place of the
    pivot, and whether the slice was already partitioned. *)
Definition partition_func (data : list A) (a b pivot : Z) : list A * Z * bool :=
  let data := Swap data a pivot in
  let i := a + 1 in
  let j := b - 1 in
  let i := partition_up (Z.to_nat (j + 1 - i)) data a i in
  let j := partition_down (Z.to_nat (j + 1 - i)) data a j in
  if i >? j then (Swap data j a, j, true)
  else
    let data := Swap data i j in
    let i := i + 1 in
    let j := j - 1 in
    let '(data, j) := partition_loop (Z.to_nat (j + 2 - i)) data a i j in
    (Swap data j a, j, false).

(** [for i <= j && !data.Less(a, i) { i++ }], by recursion on [j + 1 - i]. *)
Fixpoint partitionEqual_up (n : nat) (data : list A) (a i : Z) : Z :=
  match n with
  | O => i
  | S n' => if negb (Less data a i) then partitionEqual_up n' data a (i + 1) else i
  end.

(** [for i <= j && data.Less(a, j) { j-- }], by recursion on [j + 1 - i]. *)
Fixpoint partitionEqual_down (n : nat) (data : list A) (a j : Z) : Z :=
  match n with
  | O => j
  | S n' => if Less data a j then partitionEqual_down n' data a (j - 1) else j
  end.

Fixpoint partitionEqual_loop (n : nat) (data : list A) (a i j : Z) : list A * Z :=
  match n with
  | O => (data, i)
  | S n' =>
    let i := partitionEqual_up (Z.to_nat (j + 1 - i)) data a i in
    let j := partitionEqual_down (Z.to_nat (j + 1 - i)) data a j in
    if i >? j then (data, i)
    else partitionEqual_loop n' (Swap data i j) a (i + 1) (j - 1)
  end.

(** [partitionEqual_func] partitions [data[a:b]] into elements equal to
    [data[pivot]] followed by elements greater than it. *)
Definition partitionEqual_func (data : list A) (a b pivot : Z) : list A * Z :=
  let data := Swap data a pivot in
  let i := a + 1 in
  let j := b - 1 in
  partitionEqual_loop (Z.to_nat (j + 2 - i)) data a i j.

(** [for i < b && !data.Less(i, i-1) { i++ }], by recursion on [b - i]. *)
Fixpoint partialInsertionSort_skip (n : nat) (data : list A) (i : Z) : Z :=
  match n with
  | O => i
  | S n' =>
    if negb (Less data i (i - 1)) then partialInsertionSort_skip n' data (i + 1) else i
  end.

(** [for j := i - 1; j >= 1; j-- { if !data.Less(j, j-1) { break };
    data.Swap(j, j-1) }], by recursion on [j]. *)
Fixpoint partialInsertionSort_left (k : nat) (data : list A) : list A :=
  match k with
  | O => data
  | S k' =>
    let j := Z.of_nat k in
    if negb (Less data j (j - 1)) then data
    else partialInsertionSort_left k' (Swap data j (j - 1))
  end.

(** [for j := i + 1; j < b; j++ { if !data.Less(j, j-1) { break };
    data.Swap(j, j-1) }], by recursion on [b - j]. *)
Fixpoint partialInsertionSort_right (n : nat) (data : list A) (j : Z) : list A :=
  match n with
  | O => data
  | S n' =>
    if negb (Less data j (j - 1)) then data
    else partialInsertionSort_right n' (Swap data j (j - 1)) (j + 1)
  end.

(** [for j := 0; j < maxSteps; j++ { ... }], by recursion on
    [maxSteps - j]; [shortestShifting] is 50. *)
Fixpoint partialInsertionSort_steps (n : nat) (data : list A) (a b i : Z)
    : list A * bool :=
  match n with
  | O => (data, false)
  | S n' =>
    let i := partialInsertionSort_skip (Z.to_nat (b - i)) data i in
    if i =? b then (data, true)
    else if b - a <? 50 then (data, false)
    else
      let data := Swap data i (i - 1) in
      let data :=
        if i - a >=? 2 then partialInsertionSort_left (Z.to_nat (i - 1)) data
        else data in
      let data :=
        if b - i >=? 2
        then partialInsertionSort_right (Z.to_nat (b - (i + 1))) data (i + 1)
        else data in
      partialInsertionSort_steps n' data a b i
  end.

(** [partialInsertionSort_func] partially sorts a slice, and tells
    whether the slice is sorted at the end; [maxSteps] is 5. *)
Definition partialInsertionSort_func (data : list A) (a b : Z) : list A * bool :=
  partialInsertionSort_steps 5 data a b (a + 1).

(** [bits.Len(uint(x))] for an [x] that is not negative. *)
Definition bits_Len (x : Z) : Z :=
  if x <=? 0 then 0 else Z.log2 x + 1.

Definition nextPowerOfTwo (length : Z) : Z :=
  Z.shiftl 1 (bits_Len length).

(** [for i := 0; i < 3; i++ { ... }], by recursion on [3 - i]. *)
Fixpoint breakPatterns_loop (n : nat) (data : list A) (a length idx modulus : Z)
    (random i : Z) : list A :=
  match n with
  | O => data
  | S n' =>
    let random := xorshift_Next random in
    let other := Z.land random (modulus - 1) in
    let other := if other >=? length then other - length else other in
    breakPatterns_loop n' (Swap data (idx - 1 + i) (a + other)) a length idx modulus
      random (i + 1)
  end.

(** [breakPatterns_func] scatters some elements around. *)
Definition breakPatterns_func (data : list A) (a b : Z) : list A :=
  let length := b - a in
  if length >=? 8 then
    let random := length in
    let modulus := nextPowerOfTwo length in
    let idx := a + Z.quot length 4 * 2 - 1 in
    breakPatterns_loop 3 data a length idx modulus random 0
  else data.

(** [order2_func] returns [x, y] where [data[x] <= data[y]], and counts
    the exchange. *)
Definition order2_func (data : list A) (a b swaps : Z) : Z * Z * Z :=
  if Less data b a then (b, a, swaps + 1) else (a, b, swaps).

(** [median_func] returns the index of the median of three. *)
Definition median_func (data : list A) (a b c swaps : Z) : Z * Z :=
  let '(a, b, swaps) := order2_func data a b swaps in
  let '(b, c, swaps) := order2_func data b c swaps in
  let '(a, b, swaps) := order2_func data a b swaps in
  (b, swaps).

Definition medianAdjacent_func (data : list A) (a swaps : Z) : Z * Z :=
  median_func data (a - 1) a (a + 1) swaps.

(** [choosePivot_func] chooses a pivot in [data[a:b]]; [shortestNinther]
    is 50 and [maxSwaps] is 12. *)
Definition choosePivot_func (data : list A) (a b : Z) : Z * sortedHint :=
  let l := b - a in
  let swaps := 0 in
  let i := a + Z.quot l 4 * 1 in
  let j := a + Z.quot l 4 * 2 in
  let k := a + Z.quot l 4 * 3 in
  let '(j, swaps) :=
    if l >=? 8 then
      let '(i, j, k, swaps) :=
        if l >=? 50 then
          let '(i, swaps) := medianAdjacent_func data i swaps in
          let '(j, swaps) := medianAdjacent_func data j swaps in
          let '(k, swaps) := medianAdjacent_func data k swaps in
          (i, j, k, swaps)
        else (i, j, k, swaps) in
      median_func data i j k swaps
    else (j, swaps) in
  if swaps =? 0 then (j, increasingHint)
  else if swaps =? 12 then (j, decreasingHint)
  else (j, unknownHint).

(** [for i < j { data.Swap(i, j); i++; j-- }], by recursion on [j - i]. *)
Fixpoint reverseRange_loop (n : nat) (data : list A) (i j : Z) : list A :=
  match n with
  | O => data
  | S n' =>
    if i <? j then reverseRange_loop n' (Swap data i j) (i + 1) (j - 1) else data
  end.

Definition reverseRange_func (data : list A) (a b : Z) : list A :=
  let i := a in
  let j := b - 1 in
  reverseRange_loop (Z.to_nat (j - i)) data i j.

Definition isIncreasing (hint : sortedHint) : bool :=
  match hint with increasingHint => true | _ => false end.

Definition isDecreasing (hint : sortedHint) : bool :=
  match hint with decreasingHint => true | _ => false end.

(** [pdqsort_func] sorts [data[a:b]]; [maxInsertion] is 12. Every round
    of its loop, and every call of itself, works on a shorter range, so
    [b - a + 1] rounds are enough at every depth. *)
Fixpoint pdqsort_func (n : nat) (data : list A) (a b limit : Z)
    (wasBalanced wasPartitioned : bool) : list A :=
  match n with
  | O => data
  | S n' =>
    let length := b - a in
    if length <=? 12 then insertionSort_func data a b
    else if limit =? 0 then heapSort_func data a b
    else
      let '(data, limit) :=
        if negb wasBalanced then (breakPatterns_func data a b, limit - 1)
        else (data, limit) in
      let '(pivot, hint) := choosePivot_func data a b in
      let '(data, pivot, hint) :=
        if isDecreasing hint
        then (reverseRange_func data a b, (b - 1) - (pivot - a), increasingHint)
        else (data, pivot, hint) in
      let '(data, sorted) :=
        if wasBalanced && wasPartitioned && isIncreasing hint
        then partialInsertionSort_func data a b
        else (data, false) in
      if sorted then data
      else if (a >? 0) && negb (Less data (a - 1) pivot) then
        let '(data, mid) := partitionEqual_func data a b pivot in
        pdqsort_func n' data mid b limit wasBalanced wasPartitioned
      else
        let '(data, mid, alreadyPartitioned) := partition_func data a b pivot in
        let leftLen := mid - a in
        let rightLen := b - mid in
        let balanceThreshold := Z.quot length 8 in
        if leftLen <? rightLen then
          let data := pdqsort_func n' data a mid limit true true in
          pdqsort_func n' data (mid + 1) b limit (leftLen >=? balanceThreshold)
            alreadyPartitioned
        else
          let data := pdqsort_func n' data (mid + 1) b limit true true in
          pdqsort_func n' data a mid limit (rightLen >=? balanceThreshold)
            alreadyPartitioned
  end.

(** [sort.Slice(x, less)]. *)
Definition Slice (x : list A) : list A :=
  let length := Z.of_nat (List.length x) in
  let limit := bits_Len length in
  pdqsort_func (S (List.length x)) x 0 length limit true true.

End Slice.

End gosort.


(** ** Vocabulary of the properties *)

(** [sort.Slice] demands of [less] what [sort.Interface] demands of
    [Less]: a transitive ordering, in which being unordered either way
    is transitive as well. *)
Definition strictWeakOrder {A : Type} (less : A → A → bool) : Prop :=
  (∀ a, less a a = false)
  ∧ (∀ a b c, less a b = true → less b c = true → less a c = true)
  ∧ (∀ a b c, less a b = false → less b c = false → less a c = false).

(** Ascending order as [sort.Slice] leaves it: no element is less than
    one that stands before it. *)
Definition ascending {A : Type} (less : A → A → bool) (l : list A) : Prop :=
  StronglySorted (λ a b, less b a = false) l.

(** What the documentation of [sort.Slice] promises, and no more: the
    same elements, in ascending order. Stability is expressly not
    promised. *)
Definition sortContract (sort : (gps.Point → gps.Point → bool) → gps.Points → gps.Points)
    : Prop :=
  ∀ less l, strictWeakOrder less → sort less l ≡ₚ l ∧ ascending less (sort less l).

(** Two timestamps denote the same instant. *)
Definition sameInstant (t u : time.Time) : bool :=
  negb (time.Before t u) && negb (time.Before u t).

(** [after] is a stable rearrangement of [before]: for every instant, the
    points at that instant come in the same order in both. *)
Definition stablyRearranged (before after : gps.Points) : Prop :=
  ∀ t, filter (λ p, sameInstant (gps.Timestamp p) t = true) after
       = filter (λ p, sameInstant (gps.Timestamp p) t = true) before.

(** Non-decreasing order by timestamp, position by position. *)
Definition chronological (p : gps.Points) : Prop :=
  ∀ (i j : nat) a b, (i < j)%nat → p !! i = Some a → p !! j = Some b →
    time.Before (gps.Timestamp b) (gps.Timestamp a) = false.

(** The point at position [i] of [p] is the first one with its
    coordinate key. *)
Definition firstWithKey (key : gps.Point → string) (p : gps.Points) (i : nat)
    (point : gps.Point) : bool :=
  bool_decide (key point ∉ key <$> take i p).

(** The points of [p] that are the first with their key, in the order of
    [p]; [i] is the position of the head of [rest] in [p]. *)
Fixpoint firstOccurrences (key : gps.Point → string) (p : gps.Points) (i : nat)
    (rest : gps.Points) : gps.Points :=
  match rest with
  | [] => []
  | point :: rest' =>
      if firstWithKey key p i point
      then point :: firstOccurrences key p (S i) rest'
      else firstOccurrences key p (S i) rest'
  end.

(** [seen] holds exactly the keys of the points of [l]. *)
Definition seenKeysOf (key : gps.Point → string) (seen : gmap string bool)
    (l : gps.Points) : Prop :=
  ∀ k, default false (seen !! k) = true ↔ k ∈ key <$> l.

(** The place of a floating-point number other than NaN in the order of
    the comparisons: class, then exponent, then mantissa, the two zeros
    at one place. *)
Definition floatRank (f : spec_float) : Z * Z * Z :=
  match f with
  | S754_infinity true => (-2, 0, 0)
  | S754_finite true m e => (-1, - e, - Z.pos m)
  | S754_zero _ | S754_nan => (0, 0, 0)
  | S754_finite false m e => (1, e, Z.pos m)
  | S754_infinity false => (2, 0, 0)
  end.

Definition rankLt (a b : Z * Z * Z) : Prop :=
  a.1.1 < b.1.1
  ∨ (a.1.1 = b.1.1 ∧ (a.1.2 < b.1.2 ∨ (a.1.2 = b.1.2 ∧ a.2 < b.2))).

(** One step of a running minimum, and of a running maximum, as the
    loop of [Bounds] takes it. *)
Definition minStep (m x : float) : float := if PrimFloat.ltb x m then x else m.

Definition maxStep (m x : float) : float := if PrimFloat.ltb m x then x else m.

(** No coordinate of the collection is NaN. *)
Definition noNaN (p : gps.Points) : Prop :=
  ∀ q, q ∈ p → PrimFloat.is_nan (gps.Latitude q) = false
               ∧ PrimFloat.is_nan (gps.Longitude q) = false.

(** The largest of three indices. *)
Definition max3 (a b c : Z) : Z := Z.max a (Z.max b c).

(** The smallest of three indices. *)
Definition min3 (a b c : Z) : Z := Z.min a (Z.min b c).


(** The logical fields of a table. *)
Inductive field : Type :=
| FTimestamp
| FLatitude
| FLongitude
| FTitle
| FDescription.

Definition requiredFields : list field := [FTimestamp; FLatitude; FLongitude].

Definition fieldIndex (f : field) (indices : csv.columnIndices) : Z :=
  match f with
  | FTimestamp => csv.timestamp indices
  | FLatitude => csv.latitude indices
  | FLongitude => csv.longitude indices
  | FTitle => csv.title indices
  | FDescription => csv.description indices
  end.

(** The name configured for a field. *)
Definition configuredName (r : csv.Reader) (f : field) : string :=
  match f with
  | FTimestamp => config.TimestampColumn (csv.config r)
  | FLatitude => config.LatitudeColumn (csv.config r)
  | FLongitude => config.LongitudeColumn (csv.config r)
  | FTitle => config.TitleColumn (csv.config r)
  | FDescription => config.DescriptionColumn (csv.config r)
  end.

(** The default aliases of a field; the optional fields have none. *)
Definition aliases (f : field) : list string :=
  match f with
  | FTimestamp => csv.timestampAliases
  | FLatitude => csv.latitudeAliases
  | FLongitude => csv.longitudeAliases
  | FTitle | FDescription => []
  end.

(** The condition under which the header loop of [findColumnIndices]
    assigns field [f] the position of the header cell [cell]. *)
Definition cellMatches `{!GoLib} (r : csv.Reader) (f : field) (cell : string) : bool :=
  let colLower := strings_ToLower cell in
  match f with
  | FTimestamp | FLatitude | FLongitude =>
      csv.matchesColumn colLower (configuredName r f) (aliases f)
  | FTitle | FDescription =>
      negb (String.eqb (configuredName r f) "")
      && String.eqb colLower (strings_ToLower (configuredName r f))
  end.

(** Position of the last cell of [header] satisfying [matches], the
    cells being numbered from [i]; [cur] when there is none. *)
Fixpoint lastMatchFrom (matches : string → bool) (i : Z) (header : list string)
    (cur : Z) : Z :=
  match header with
  | [] => cur
  | cell :: rest => lastMatchFrom matches (i + 1) rest (if matches cell then i else cur)
  end.

(** The point of a row that passes record validation. *)
Definition validPoint `{!GoLib} (r : csv.Reader) (indices : csv.columnIndices)
    (record : list string) : option gps.Point :=
  match csv.parseRecord r record indices 0 with
  | Ok point => Some point
  | _ => None
  end.

(** The reason for which a row fails record validation. *)
Definition rowFailure `{!GoLib} (r : csv.Reader) (indices : csv.columnIndices)
    (record : list string) : option error :=
  match csv.parseRecord r record indices 0 with
  | Err e => Some e
  | _ => None
  end.

(** The points of the rows that pass record validation, in row order. *)
Definition validPoints `{!GoLib} (r : csv.Reader) (indices : csv.columnIndices)
    (rows : list (list string)) : gps.Points :=
  omap (validPoint r indices) rows.

(** The number of rows that pass record validation. *)
Definition validRowCount `{!GoLib} (r : csv.Reader) (indices : csv.columnIndices)
    (rows : list (list string)) : nat :=
  length (filter (λ record, is_Some (validPoint r indices record)) rows).

(** The warnings printed for the rows that fail record validation, the
    first row bearing the number [n]. *)
Fixpoint rowWarnings `{!GoLib} (r : csv.Reader) (indices : csv.columnIndices)
    (n : Z) (rows : list (list string)) : list csv.warning :=
  match rows with
  | [] => []
  | record :: rest =>
      match rowFailure r indices record with
      | Some e => csv.mkWarning n e :: rowWarnings r indices (n + 1) rest
      | None => rowWarnings r indices (n + 1) rest
      end
  end.

(** The required indices are positions, the optional ones positions or
    the mark -1. *)
Definition wellFormedIndices (indices : csv.columnIndices) : Prop :=
  0 ≤ csv.timestamp indices ∧ 0 ≤ csv.latitude indices
  ∧ 0 ≤ csv.longitude indices ∧ -1 ≤ csv.title indices
  ∧ -1 ≤ csv.description indices.

(** ** An executable instance of the library, to run examples

    [example.lib] implements the library functions on the inputs used in
    the examples below: ASCII text for [ToLower] and [TrimSpace], plain
    decimal numerals of at most 15 significant digits for [ParseFloat],
    the seven layouts of [csv.defaultFormats] on values of canonical
    widths for [time.Parse] (a numeric offset is kept as a fixed zone).
    No general property depends on it. *)

Module example.

Definition lowerByte (c : ascii) : ascii :=
  let n := N_of_ascii c in
  if ((65 <=? n) && (n <=? 90))%N then ascii_of_N (n + 32) else c.

Fixpoint ToLower (s : string) : string :=
  match s with
  | EmptyString => EmptyString
  | String c rest => String (lowerByte c) (ToLower rest)
  end.

Definition isSpace (c : ascii) : bool :=
  let n := N_of_ascii c in
  ((9 <=? n) && (n <=? 13) || (n =? 32))%N.

Fixpoint trimLeft (s : string) : string :=
  match s with
  | EmptyString => EmptyString
  | String c rest => if isSpace c then trimLeft rest else s
  end.

Fixpoint trimRight (s : string) : string :=
  match s with
  | EmptyString => EmptyString
  | String c rest =>
      match trimRight rest with
      | EmptyString => if isSpace c then EmptyString else String c EmptyString
      | rest' => String c rest'
      end
  end.

Definition TrimSpace (s : string) : string := trimRight (trimLeft s).

(** The run of decimal digits at the head of [s], added to [acc], and
    its length. *)
Fixpoint readDigits (s : string) (acc : Z) (n : nat) : Z * nat * string :=
  match s with
  | String c rest => if strconv.isDigit c then readDigits rest (acc * 10 + strconv.digitVal c) (S n) else (acc, n, s)
  | EmptyString => (acc, n, s)
  end.

Definition floatOfZ (z : Z) : float := PrimFloat.of_uint63 (Uint63.of_Z z).

Definition ParseFloat (s : string) : option float :=
  let '(neg, body) :=
    match s with
    | String "-" rest => (true, rest)
    | String "+" rest => (false, rest)
    | _ => (false, s)
    end in
  let '(ip, ni, rest) := readDigits body 0 0 in
  let '(m, nf, rest') :=
    match rest with
    | String "." frac => readDigits frac ip 0
    | _ => (ip, 0%nat, rest)
    end in
  if (Nat.eqb (ni + nf) 0) || negb (String.eqb rest' "") || (2 ^ 53 <=? m) || (18 <? Z.of_nat nf)
  then None
  else
    let x := (floatOfZ m / floatOfZ (10 ^ Z.of_nat nf))%float in
    Some (if neg then (- x)%float else x).

Definition padLeft (n : nat) (s : string) : string :=
  String.concat "" (replicate (n - String.length s) "0") +:+ s.

Definition decimal (z : Z) : string := NilZero.string_of_uint (N.to_uint (Z.to_N z)).

Definition Sprintf_6f (x : float) : string :=
  match Prim2SF x with
  | S754_nan => "NaN"
  | S754_infinity false => "+Inf"
  | S754_infinity true => "-Inf"
  | S754_zero s => (if s then "-" else "") +:+ "0.000000"
  | S754_finite s m e =>
      let num := Z.pos m * 10 ^ 6 * 2 ^ Z.max e 0 in
      let den := 2 ^ Z.max (- e) 0 in
      let q := num / den in
      let rem := num mod den in
      let q := if 2 * rem <? den then q
               else if den <? 2 * rem then q + 1
               else if Z.even q then q else q + 1 in
      (if s then "-" else "") +:+ decimal (q / 10 ^ 6) +:+ "."
        +:+ padLeft 6 (decimal (q mod 10 ^ 6))
  end.

Inductive chunk : Type :=
| Year | Month | Day | Hour | Minute | Second | Millis | Offset
| Lit (c : ascii).

Fixpoint dropString (n : nat) (s : string) : string :=
  match n, s with
  | S n', String _ rest => dropString n' rest
  | _, _ => s
  end.

Definition stdChunks : list (string * chunk) :=
  [ ("2006", Year); ("01", Month); ("02", Day); ("15", Hour); ("04", Minute);
    ("05", Second); (".000", Millis); ("-07:00", Offset) ].

Definition stdChunkAt (layout : string) : option (string * chunk) :=
  List.find (λ sc, String.prefix (fst sc) layout) stdChunks.

Fixpoint layoutChunks (fuel : nat) (layout : string) : list chunk :=
  match fuel with
  | O => []
  | S fuel' =>
      match stdChunkAt layout, layout with
      | Some (text, c), _ => c :: layoutChunks fuel' (dropString (String.length text) layout)
      | None, String c rest => Lit c :: layoutChunks fuel' rest
      | None, EmptyString => []
      end
  end.

(** Exactly [n] decimal digits. *)
Fixpoint fixedNum (n : nat) (acc : Z) (value : string) : option (Z * string) :=
  match n with
  | O => Some (acc, value)
  | S n' =>
      match value with
      | String c rest => if strconv.isDigit c then fixedNum n' (acc * 10 + strconv.digitVal c) rest else None
      | EmptyString => None
      end
  end.

(** One or two decimal digits. *)
Definition shortNum (value : string) : option (Z * string) :=
  match fixedNum 2 0 value with
  | Some res => Some res
  | None => fixedNum 1 0 value
  end.

Record fields : Type := mkFields {
  fYear : Z; fMonth : Z; fDay : Z; fHour : Z; fMinute : Z; fSecond : Z;
  fNanos : Z; fOffset : option Z
}.

Definition parseChunk (c : chunk) (f : fields) (value : string)
    : option (fields * string) :=
  match c with
  | Year => '(n, rest) ← fixedNum 4 0 value;
      Some (mkFields n (fMonth f) (fDay f) (fHour f) (fMinute f) (fSecond f) (fNanos f) (fOffset f), rest)
  | Month => '(n, rest) ← fixedNum 2 0 value;
      if (1 <=? n) && (n <=? 12)
      then Some (mkFields (fYear f) n (fDay f) (fHour f) (fMinute f) (fSecond f) (fNanos f) (fOffset f), rest)
      else None
  | Day => '(n, rest) ← fixedNum 2 0 value;
      Some (mkFields (fYear f) (fMonth f) n (fHour f) (fMinute f) (fSecond f) (fNanos f) (fOffset f), rest)
  | Hour => '(n, rest) ← shortNum value;
      if n <? 24
      then Some (mkFields (fYear f) (fMonth f) (fDay f) n (fMinute f) (fSecond f) (fNanos f) (fOffset f), rest)
      else None
  | Minute => '(n, rest) ← fixedNum 2 0 value;
      if n <? 60
      then Some (mkFields (fYear f) (fMonth f) (fDay f) (fHour f) n (fSecond f) (fNanos f) (fOffset f), rest)
      else None
  | Second => '(n, rest) ← fixedNum 2 0 value;
      if n <? 60
      then Some (mkFields (fYear f) (fMonth f) (fDay f) (fHour f) (fMinute f) n (fNanos f) (fOffset f), rest)
      else None
  | Millis =>
      match value with
      | String "." rest => '(n, rest') ← fixedNum 3 0 rest;
          Some (mkFields (fYear f) (fMonth f) (fDay f) (fHour f) (fMinute f) (fSecond f) (n * 1000000) (fOffset f), rest')
      | _ => None
      end
  | Offset =>
      match value with
      | String sign rest =>
          '(hh, rest1) ← fixedNum 2 0 rest;
          match rest1 with
          | String ":" rest2 =>
              '(mm, rest3) ← fixedNum 2 0 rest2;
              let off := (hh * 60 + mm) * 60 in
              if (24 <? hh) || (60 <? mm) then None
              else if Ascii.eqb sign "+"
              then Some (mkFields (fYear f) (fMonth f) (fDay f) (fHour f) (fMinute f) (fSecond f) (fNanos f) (Some off), rest3)
              else if Ascii.eqb sign "-"
              then Some (mkFields (fYear f) (fMonth f) (fDay f) (fHour f) (fMinute f) (fSecond f) (fNanos f) (Some (- off)), rest3)
              else None
          | _ => None
          end
      | EmptyString => None
      end
  | Lit c =>
      match value with
      | String c' rest => if Ascii.eqb c c' then Some (f, rest) else None
      | EmptyString => None
      end
  end.

Fixpoint parseChunks (cs : list chunk) (f : fields) (value : string) : option fields :=
  match cs with
  | [] => if String.eqb value "" then Some f else None
  | c :: cs' => '(f', rest) ← parseChunk c f value; parseChunks cs' f' rest
  end.

Definition isLeap (y : Z) : bool :=
  (y mod 4 =? 0) && (negb (y mod 100 =? 0) || (y mod 400 =? 0)).

Definition daysIn (m y : Z) : Z :=
  if m =? 2 then (if isLeap y then 29 else 28)
  else if (m =? 4) || (m =? 6) || (m =? 9) || (m =? 11) then 30 else 31.

(** Days from 1970-01-01 to the given civil date. *)
Definition daysFromCivil (y m d : Z) : Z :=
  let y' := if m <=? 2 then y - 1 else y in
  let era := y' / 400 in
  let yoe := y' - era * 400 in
  let doy := (153 * (if 2 <? m then m - 3 else m + 9) + 2) / 5 + d - 1 in
  let doe := yoe * 365 + yoe / 4 - yoe / 100 + doy in
  era * 146097 + doe - 719468.

Definition Parse (layout value : string) : option time.Time :=
  f ← parseChunks (layoutChunks (String.length layout) layout)
        (mkFields 0 1 1 0 0 0 0 None) value;
  if (fDay f <? 1) || (daysIn (fMonth f) (fYear f) <? fDay f) then None
  else
    let unix := daysFromCivil (fYear f) (fMonth f) (fDay f) * 86400
                + fHour f * 3600 + fMinute f * 60 + fSecond f in
    match fOffset f with
    | None => Some (time.mkTime (unix + time.unixToInternal) (fNanos f) time.UTC)
    | Some off =>
        Some (time.mkTime (unix - off + time.unixToInternal) (fNanos f)
                (time.FixedZone "" off))
    end.

#[local] Instance lib : GoLib := {
  strings_ToLower := ToLower;
  strings_TrimSpace := TrimSpace;
  time_Parse := Parse;
  strconv_ParseFloat := ParseFloat;
  fmt_Sprintf_6f := Sprintf_6f
}.

(** A sort within the contract of [sort.Slice]: merge sort. *)
Definition mergeSort (less : gps.Point → gps.Point → bool) (l : gps.Points)
    : gps.Points :=
  @merge_sort _ (λ a b, less b a = false) (λ a b, decide (less b a = false)) l.

(** Readers: with a header row and default names, without a header row,
    with a header row and duplicate removal, and with a header row and a
    skip count of two. *)
Definition noNames (hasHeader : bool) (skip : Z) : config.CSVFormatConfig :=
  config.mkCSVFormatConfig "" "" "" "" "" "" hasHeader "," skip.

Definition withHeader : csv.Reader :=
  csv.NewReader (noNames true 0) (config.mkProcessingConfig false "" []).

Definition withoutHeader : csv.Reader :=
  csv.NewReader (noNames false 0) (config.mkProcessingConfig false "" []).

Definition withDedup : csv.Reader :=
  csv.NewReader (noNames true 0) (config.mkProcessingConfig true "" []).

Definition skippingTwo : csv.Reader :=
  csv.NewReader (noNames true 2) (config.mkProcessingConfig false "" []).

Definition withTitle : csv.Reader :=
  csv.NewReader
    (config.mkCSVFormatConfig "" "" "" "Name" "" "" true "," 0)
    (config.mkProcessingConfig false "" []).

(** A table with a header, two valid rows and, between them, a row
    whose latitude is not a number. *)
Definition track : list (list string) :=
  [ ["timestamp"; "latitude"; "longitude"; "title"; "description"];
    ["2025-10-28T09:00:00Z"; "37.7749"; "-122.4194"; "A"; "d1"];
    ["2025-10-28T09:10:00Z"; "north"; "-122.4100"; "X"; "d"];
    ["2025-10-28T09:15:00Z"; "37.7849"; "-122.4094"; "B"; "d2"] ].

(** A header and one data row, the time given in epoch seconds. *)
Definition shortTable : list (list string) :=
  [ ["Time"; "Lat"; "Lng"];
    ["1730131445"; " 37.7749 "; "-122.4194"] ].

(** A header in which two cells name the latitude. *)
Definition twoLatitudes : list string :=
  ["time"; "lat"; "lon"; "Latitude"; "Name"; "name"].

(** The floating-point numbers nearest to 37.7749, -122.4194, 37.7849,
    -122.4094 and 37.77490004. *)
Definition lat1 : float := 0x1.2e32fec56d5dp+5%float.
Definition lng1 : float := (-0x1.e9ad77318fc5p+6)%float.
Definition lat2 : float := 0x1.2e4779a6b50b1p+5%float.
Definition lng2 : float := (-0x1.e9a339c0ebeep+6)%float.
Definition lat1' : float := 0x1.2e32fecacbc0bp+5%float.

Definition pointA : gps.Point :=
  gps.mkPoint (time.Unix 1761642000) lat1 lng1 "A" "d1".

Definition pointB : gps.Point :=
  gps.mkPoint (time.Unix 1761642900) lat2 lng2 "B" "d2".

(** At the place of [pointA] to six decimals, at the time of [pointB],
    under another title. *)
Definition pointA' : gps.Point :=
  gps.mkPoint (time.Unix 1761642900) lat1' lng1 "C" "d3".

(** Thirteen stops at thirteen places: the first twelve recorded at one
    and the same second, the last one a quarter of an hour before them. *)
Definition stop (title : string) (lat : float) (sec : Z) : gps.Point :=
  gps.mkPoint (time.Unix sec) lat lng1 title "".

Definition stop0 : gps.Point := stop "0" 40 1761642900.
Definition stop1 : gps.Point := stop "1" 41 1761642900.
Definition stop2 : gps.Point := stop "2" 42 1761642900.
Definition stop3 : gps.Point := stop "3" 43 1761642900.
Definition stop4 : gps.Point := stop "4" 44 1761642900.
Definition stop5 : gps.Point := stop "5" 45 1761642900.
Definition stop6 : gps.Point := stop "6" 46 1761642900.
Definition stop7 : gps.Point := stop "7" 47 1761642900.
Definition stop8 : gps.Point := stop "8" 48 1761642900.
Definition stop9 : gps.Point := stop "9" 49 1761642900.
Definition stop10 : gps.Point := stop "10" 50 1761642900.
Definition stop11 : gps.Point := stop "11" 51 1761642900.
Definition stop12 : gps.Point := stop "12" 52 1761642000.

Definition thirteenStops : gps.Points :=
  [stop0; stop1; stop2; stop3; stop4; stop5; stop6; stop7; stop8; stop9;
   stop10; stop11; stop12].

(** The points of the two valid rows of [track]. *)
Definition trackPoint1 : gps.Point :=
  gps.mkPoint (time.mkTime 63897238800 0 time.UTC) lat1 lng1 "" "".

Definition trackPoint2 : gps.Point :=
  gps.mkPoint (time.mkTime 63897239700 0 time.UTC) lat2 lng2 "" "".

(** A configuration file whose key names an environment variable, an
    environment in which only that variable is set, and flags that give
    the output file. *)
Definition fileConfig : config.Config :=
  config.mkConfig
    (config.mkGoogleMapsConfig "${MAPS_KEY}" "weekly" [])
    (config.mkInputConfig "track.csv" (noNames true 0))
    (config.mkOutputConfig "" false false "")
    "Track"
    (config.mkProcessingConfig false "" [])
    (config.mkLoggingConfig "info" "" false).

Definition environment (name : string) : string :=
  if String.eqb name "MAPS_KEY" then "secret" else "".

Definition outputFlag : app.Flags := app.mkFlags "config.yaml" "" "" "map.html" "".

(** A file system holding [track] under every name. *)
Definition trackFile (filename : string) (comma : option ascii) : csv.fileContent :=
  csv.Records track.

End example.

(** * Properties *)

(** ** Order of instants *)

Ltac time_order :=
  unfold sameInstant, gps.lessByTimestamp, time.Before, time.After in *;
  repeat match goal with
         | t : time.Time |- _ => destruct t
         end;
  simpl in *;
  repeat match goal with
         | H : _ || _ = true |- _ => apply orb_true_iff in H
         | H : _ || _ = false |- _ => apply orb_false_iff in H
         | H : _ && _ = true |- _ => apply andb_true_iff in H
         | H : _ && _ = false |- _ => apply andb_false_iff in H
         | H : negb _ = true |- _ => apply negb_true_iff in H
         | H : negb _ = false |- _ => apply negb_false_iff in H
         | H : _ ∧ _ |- _ => destruct H
         | H : _ ∨ _ |- _ => destruct H
         | H : (_ <? _) = true |- _ => apply Z.ltb_lt in H
         | H : (_ <? _) = false |- _ => apply Z.ltb_ge in H
         | H : (_ >? _) = true |- _ => rewrite Z.gtb_ltb in H
         | H : (_ >? _) = false |- _ => rewrite Z.gtb_ltb in H
         | H : (_ =? _) = true |- _ => apply Z.eqb_eq in H
         | H : (_ =? _) = false |- _ => apply Z.eqb_neq in H
         end;
  rewrite ?Z.gtb_ltb;
  repeat match goal with
         | |- context [?a <? ?b] => destruct (Z.ltb_spec a b)
         | |- context [?a =? ?b] => destruct (Z.eqb_spec a b)
         end;
  simpl; try lia; try congruence.

Lemma After_Before (t u : time.Time) : time.After t u = time.Before u t.
Proof.
  unfold time.After, time.Before. rewrite !Z.gtb_ltb.
  by rewrite (Z.eqb_sym (time.sec t)).
Qed.

Lemma Before_irrefl (t : time.Time) : time.Before t t = false.
Proof. time_order. Qed.

Lemma Before_trans (t u v : time.Time) :
  time.Before t u = true → time.Before u v = true → time.Before t v = true.
Proof. intros H1 H2. time_order. Qed.

Lemma notBefore_trans (t u v : time.Time) :
  time.Before t u = false → time.Before u v = false → time.Before t v = false.
Proof. intros H1 H2. time_order. Qed.

Lemma Before_notBefore_trans (t u v : time.Time) :
  time.Before u t = false → time.Before v u = false → time.Before v t = false.
Proof. intros H1 H2. time_order. Qed.

Lemma lessByTimestamp_strictWeakOrder : strictWeakOrder gps.lessByTimestamp.
Proof.
  repeat split.
  - intros a. apply Before_irrefl.
  - intros a b c. apply Before_trans.
  - intros a b c. apply notBefore_trans.
Qed.

(** ** [TimeRange] *)

Lemma TimeRange_loop_spec (rest : gps.Points) (start end_ : time.Time) :
  ∃ s e, gps.TimeRange_loop start end_ rest = (s, e)
    ∧ (s = start ∨ s ∈ gps.Timestamp <$> rest)
    ∧ (e = end_ ∨ e ∈ gps.Timestamp <$> rest)
    ∧ time.Before start s = false
    ∧ time.After end_ e = false
    ∧ (∀ q, q ∈ rest → time.Before (gps.Timestamp q) s = false
                        ∧ time.After (gps.Timestamp q) e = false).
Proof.
  revert start end_.
  induction rest as [|point rest IH]; intros start end_.
  - exists start, end_. simpl. repeat split; auto using Before_irrefl.
    + rewrite After_Before. apply Before_irrefl.
    + inversion H.
    + inversion H.
  - simpl.
    set (start' := if time.Before (gps.Timestamp point) start
                   then gps.Timestamp point else start).
    set (end' := if time.After (gps.Timestamp point) end_
                 then gps.Timestamp point else end_).
    destruct (IH start' end') as (s & e & Heq & Hs & He & Hbs & Hae & Hall).
    assert (Hstart : time.Before start start' = false
                     ∧ time.Before (gps.Timestamp point) start' = false).
    { subst start'. destruct (time.Before (gps.Timestamp point) start) eqn:Hb.
      - split; [| apply Before_irrefl]. time_order.
      - split; [apply Before_irrefl | done]. }
    assert (Hend : time.Before end' end_ = false
                   ∧ time.Before end' (gps.Timestamp point) = false).
    { subst end'. rewrite After_Before.
      destruct (time.Before end_ (gps.Timestamp point)) eqn:Hb.
      - split; [| apply Before_irrefl]. time_order.
      - split; [apply Before_irrefl | done]. }
    rewrite After_Before in Hae.
    exists s, e. split; [exact Heq |]. repeat split.
    + destruct Hs as [-> | Hs]; [| right; apply elem_of_cons; by right].
      subst start'. destruct (time.Before _ start); [right | by left].
      apply elem_of_cons; by left.
    + destruct He as [-> | He]; [| right; apply elem_of_cons; by right].
      subst end'. destruct (time.After _ end_); [right | by left].
      apply elem_of_cons; by left.
    + eapply Before_notBefore_trans; [exact Hbs | apply Hstart].
    + rewrite After_Before.
      eapply Before_notBefore_trans; [apply Hend | exact Hae].
    + apply elem_of_cons in H as [-> | Hq]; [| by apply Hall].
      eapply Before_notBefore_trans; [exact Hbs | apply Hstart].
    + apply elem_of_cons in H as [-> | Hq]; [| by apply Hall].
      rewrite After_Before.
      eapply Before_notBefore_trans; [apply Hend | exact Hae].
Qed.

(** C9. On a non-empty collection, in whatever order, [TimeRange]
    returns the timestamps of two of its points such that no point is
    before the first and none is after the second; on the empty
    collection it returns the zero instant twice. *)
Theorem TimeRange_earliest_latest (p : gps.Points) :
  (p = [] → gps.TimeRange p = (time.zero, time.zero))
  ∧ (p ≠ [] →
     ∃ a b, a ∈ p ∧ b ∈ p
       ∧ gps.TimeRange p = (gps.Timestamp a, gps.Timestamp b)
       ∧ ∀ q, q ∈ p →
           time.Before (gps.Timestamp q) (gps.Timestamp a) = false
           ∧ time.After (gps.Timestamp q) (gps.Timestamp b) = false).
Proof.
  split; [by intros -> |].
  destruct p as [|p0 rest]; [done | intros _]. simpl.
  destruct (TimeRange_loop_spec rest (gps.Timestamp p0) (gps.Timestamp p0))
    as (s & e & Heq & Hs & He & Hbs & Hae & Hall).
  assert (Ha : ∃ a, a ∈ p0 :: rest ∧ gps.Timestamp a = s).
  { destruct Hs as [-> | Hs]; [exists p0; split; [apply elem_of_cons; by left | done] |].
    apply list_elem_of_fmap in Hs as (a & -> & Ha).
    exists a. split; [apply elem_of_cons; by right | done]. }
  assert (Hb : ∃ b, b ∈ p0 :: rest ∧ gps.Timestamp b = e).
  { destruct He as [-> | He]; [exists p0; split; [apply elem_of_cons; by left | done] |].
    apply list_elem_of_fmap in He as (b & -> & Hb).
    exists b. split; [apply elem_of_cons; by right | done]. }
  destruct Ha as (a & Ha & <-), Hb as (b & Hb & <-).
  exists a, b. repeat split; try done.
  - apply elem_of_cons in H as [-> | Hq]; [done | by apply Hall].
  - apply elem_of_cons in H as [-> | Hq]; [done | by apply Hall].
Qed.

(** ** [RemoveDuplicates] *)

Section RemoveDuplicates.

Variable Sprintf_6f : float → string.

Let key := gps.coordKey Sprintf_6f.
Let loop := gps.RemoveDuplicates_loop Sprintf_6f.

Lemma seenKeysOf_empty : seenKeysOf key ∅ [].
Proof.
  intros k. rewrite lookup_empty. simpl. split; [done |].
  intros H. by apply elem_of_nil in H.
Qed.

Lemma seenKeysOf_insert seen l point :
  seenKeysOf key seen l →
  seenKeysOf key (<[key point := true]> seen) (l ++ [point]).
Proof.
  intros Hseen k. rewrite fmap_app, elem_of_app. simpl.
  rewrite list_elem_of_singleton, <- (Hseen k).
  destruct (decide (key point = k)) as [<- | Hne].
  - rewrite lookup_insert_eq. simpl. tauto.
  - rewrite lookup_insert_ne by done. split; [tauto |].
    intros [H | H]; [done | congruence].
Qed.

Lemma seenKeysOf_seen seen l point :
  seenKeysOf key seen l →
  default false (seen !! key point) = true →
  seenKeysOf key seen (l ++ [point]).
Proof.
  intros Hseen Hk k. rewrite fmap_app, elem_of_app. simpl.
  rewrite list_elem_of_singleton, <- (Hseen k).
  split; [tauto |]. by intros [H | ->].
Qed.

Lemma firstWithKey_seen seen prefix rest point :
  seenKeysOf key seen prefix →
  firstWithKey key (prefix ++ rest) (length prefix) point
  = negb (default false (seen !! key point)).
Proof.
  intros Hseen. unfold firstWithKey. rewrite take_app_length.
  destruct (default false (seen !! key point)) eqn:Hk; simpl.
  - apply bool_decide_eq_false. intros Hnot. apply Hnot. by apply Hseen.
  - apply bool_decide_eq_true. intros Hin. apply Hseen in Hin. congruence.
Qed.

Lemma RemoveDuplicates_loop_firstOccurrences p seen result prefix :
  seenKeysOf key seen prefix →
  loop seen result p
  = result ++ firstOccurrences key (prefix ++ p) (length prefix) p.
Proof.
  revert seen result prefix.
  induction p as [|point rest IH]; intros seen result prefix Hseen; simpl.
  - by rewrite app_nil_r.
  - rewrite (firstWithKey_seen seen) by done. fold key.
    destruct (default false (seen !! key point)) eqn:Hk; simpl.
    + rewrite (IH _ _ (prefix ++ [point])) by by apply seenKeysOf_seen.
      rewrite <- !app_assoc, length_app. simpl.
      by rewrite Nat.add_1_r.
    + rewrite (IH _ _ (prefix ++ [point])) by by apply seenKeysOf_insert.
      rewrite <- !app_assoc, length_app. simpl.
      by rewrite Nat.add_1_r.
Qed.



Lemma RemoveDuplicates_loop_length p seen result :
  (length (loop seen result p) ≤ length result + length p)%nat.
Proof.
  revert seen result.
  induction p as [|x rest IH]; intros seen result; simpl; [lia |].
  destruct (negb _).
  - etrans; [apply IH |]. rewrite length_app. simpl. lia.
  - etrans; [apply IH |]. lia.
Qed.

Lemma RemoveDuplicates_loop_NoDup p seen result :
  seenKeysOf key seen result →
  NoDup (key <$> result) →
  NoDup (key <$> loop seen result p).
Proof.
  revert seen result.
  induction p as [|x rest IH]; intros seen result Hseen Hnodup; simpl; [done |].
  fold key. destruct (default false (seen !! key x)) eqn:Hx; simpl.
  - by apply IH.
  - apply IH; [by apply seenKeysOf_insert |].
    rewrite fmap_app. apply NoDup_app. repeat split; [done | | ].
    + intros k Hk Hin. apply list_elem_of_singleton in Hin as ->.
      apply Hseen in Hk. congruence.
    + apply NoDup_singleton.
Qed.

Lemma RemoveDuplicates_loop_distinct l seen result :
  NoDup (key <$> l) →
  (∀ q, q ∈ l → default false (seen !! key q) = false) →
  loop seen result l = result ++ l.
Proof.
  revert seen result.
  induction l as [|x rest IH]; intros seen result Hnodup Hfresh; simpl.
  - by rewrite app_nil_r.
  - fold key. rewrite fmap_cons in Hnodup. apply NoDup_cons in Hnodup as [Hx Hnodup].
    rewrite (Hfresh x) by (apply elem_of_cons; by left). simpl.
    rewrite IH; [by rewrite <- app_assoc | done |].
    intros q Hq. rewrite lookup_insert_ne.
    + apply Hfresh. apply elem_of_cons. by right.
    + intros Heq. apply Hx. rewrite Heq. by apply list_elem_of_fmap_2.
Qed.


(** C8. [RemoveDuplicates] is idempotent, and its result is no longer
    than its input. *)
Theorem RemoveDuplicates_idempotent_and_shorter (p : gps.Points) :
  gps.RemoveDuplicates Sprintf_6f (gps.RemoveDuplicates Sprintf_6f p)
  = gps.RemoveDuplicates Sprintf_6f p
  ∧ (length (gps.RemoveDuplicates Sprintf_6f p) ≤ length p)%nat.
Proof.
  split.
  - unfold gps.RemoveDuplicates at 1.
    apply (RemoveDuplicates_loop_distinct _ ∅ []).
    + apply RemoveDuplicates_loop_NoDup; [apply seenKeysOf_empty | apply NoDup_nil_2].
    + intros q _. by rewrite lookup_empty.
  - apply (RemoveDuplicates_loop_length p ∅ []).
Qed.

End RemoveDuplicates.

(** ** [SortByTimestamp] *)

Lemma ascending_lookup {A : Type} (less : A → A → bool) (l : list A)
    (i j : nat) (a b : A) :
  ascending less l → (i < j)%nat → l !! i = Some a → l !! j = Some b →
  less b a = false.
Proof.
  intros Hsorted. revert i j.
  induction Hsorted as [|x l Hsorted IH Hall]; intros i j Hij Hi Hj; [done |].
  destruct j as [|j]; [lia |]. destruct i as [|i]; simpl in *.
  - injection Hi as ->. rewrite Forall_forall in Hall.
    apply Hall. by eapply list_elem_of_lookup_2.
  - apply (IH i j); [lia | done | done].
Qed.

(** C2, as the code has it. Whatever [sort.Slice] does within its
    contract, [SortByTimestamp] leaves the same points in the slice, in
    non-decreasing order of timestamp. *)
Theorem SortByTimestamp_chronological
    (sort_Slice : (gps.Point → gps.Point → bool) → gps.Points → gps.Points)
    (Hsort : sortContract sort_Slice) (p : gps.Points) :
  gps.SortByTimestamp sort_Slice p ≡ₚ p
  ∧ chronological (gps.SortByTimestamp sort_Slice p).
Proof.
  destruct (Hsort gps.lessByTimestamp p lessByTimestamp_strictWeakOrder)
    as [Hperm Hasc].
  split; [exact Hperm |].
  intros i j a b Hij Hi Hj.
  exact (ascending_lookup gps.lessByTimestamp _ i j a b Hasc Hij Hi Hj).
Qed.

(** ** [strconv.ParseInt] stays within 64 bits *)

Lemma digitVal_range (c : ascii) :
  strconv.isDigit c = true → 0 ≤ strconv.digitVal c ≤ 9.
Proof.
  unfold strconv.isDigit, strconv.digitVal. intros H.
  apply andb_true_iff in H as [H1 H2].
  apply N.leb_le in H1, H2. lia.
Qed.

Lemma ParseUint_loop_nonneg (s : string) (n un : Z) :
  0 ≤ n → strconv.ParseUint_loop n s = Some un → 0 ≤ un.
Proof.
  revert n. induction s as [|c rest IH]; intros n Hn H; simpl in H.
  - by injection H as <-.
  - destruct (strconv.isDigit c) eqn:Hc; [| done].
    destruct (n >=? _); [done |].
    destruct (_ >? _); [done |].
    apply IH in H; [done |]. apply digitVal_range in Hc. lia.
Qed.

Lemma ParseUint_nonneg (s : string) (un : Z) :
  strconv.ParseUint s = Some un → 0 ≤ un.
Proof.
  unfold strconv.ParseUint. destruct s; [done |].
  by apply ParseUint_loop_nonneg.
Qed.

Lemma ParseInt_int64 (s : string) (n : Z) :
  strconv.ParseInt s = Some n → - 2 ^ 63 ≤ n < 2 ^ 63.
Proof.
  unfold strconv.ParseInt. destruct s as [|c rest]; [done |].
  destruct (strconv.ParseUint _) as [un |] eqn:Hun; [| done].
  apply ParseUint_nonneg in Hun.
  destruct (Ascii.eqb c "-"); simpl.
  - destruct (Z.gtb_spec un (2 ^ 63)); [done |]. intros [= <-]. lia.
  - destruct (Z.geb_spec un (2 ^ 63)); [done |]. intros [= <-]. lia.
Qed.

(** ** The timestamp normalizer *)

Section Timestamps.

Context {golib : GoLib}.
Variable r : csv.Reader.

Lemma tryFormats_app (l1 l2 : list string) (s : string) :
  csv.tryFormats (l1 ++ l2) s
  = match csv.tryFormats l1 s with
    | Some t => Some t
    | None => csv.tryFormats l2 s
    end.
Proof.
  induction l1 as [|f l1 IH]; simpl; [done |].
  by destruct (time_Parse f s).
Qed.

Lemma tryFormats_None (l : list string) (s : string) :
  csv.tryFormats l s = None ↔ ∀ f, f ∈ l → time_Parse f s = None.
Proof.
  induction l as [|f l IH]; simpl.
  - split; [| done]. intros _ f Hf. by apply elem_of_nil in Hf.
  - destruct (time_Parse f s) eqn:Hf.
    + split; [done |]. intros Hall.
      rewrite Hall in Hf; [done | apply elem_of_cons; by left].
    + rewrite IH. split.
      * intros Hall g Hg. apply elem_of_cons in Hg as [-> | Hg]; auto.
      * intros Hall g Hg. apply Hall, elem_of_cons. by right.
Qed.

Lemma tryFormats_first (l : list string) (s : string) (i : nat) (f : string)
    (t : time.Time) :
  l !! i = Some f →
  time_Parse f s = Some t →
  (∀ (j : nat) g, (j < i)%nat → l !! j = Some g → time_Parse g s = None) →
  csv.tryFormats l s = Some t.
Proof.
  revert i. induction l as [|g l IH]; intros i Hi Hf Hearlier; [done |].
  destruct i as [|i]; simpl in *.
  - injection Hi as ->. by rewrite Hf.
  - rewrite (Hearlier 0%nat g) by (done || lia).
    apply (IH i); [done | done |].
    intros j g' Hj Hg'. apply (Hearlier (S j) g'); [lia | done].
Qed.

Lemma tryFormats_Some (l : list string) (s : string) (t : time.Time) :
  csv.tryFormats l s = Some t →
  ∃ (i : nat) f, l !! i = Some f ∧ time_Parse f s = Some t
    ∧ ∀ (j : nat) g, (j < i)%nat → l !! j = Some g → time_Parse g s = None.
Proof.
  induction l as [|g l IH]; simpl; [done |].
  destruct (time_Parse g s) eqn:Hg.
  - intros [= ->]. exists 0%nat, g. repeat split; [done |]. intros; lia.
  - intros H. destruct (IH H) as (i & f & Hi & Hf & Hearlier).
    exists (S i), f. repeat split; [done | done |].
    intros [|j] g' Hj Hg'; simpl in Hg'; [by injection Hg' as <- |].
    apply (Hearlier j g'); [lia | done].
Qed.

(** C4. After trimming, [parseTimestamp] tries the configured layouts
    in list order, then the seven fallback layouts in their fixed order
    (ISO-8601 with Z, ISO-8601 with numeric offset, date and time
    separated by a space, month/day/year with time, day/month/year with
    time, ISO-8601 with milliseconds and Z, date only), and takes the
    first layout that parses; when none does, it reads the token as
    decimal epoch seconds within 64 bits; it fails only when that fails
    too. *)
Theorem parseTimestamp_resolution_order (s : string) :
  let token := strings_TrimSpace s in
  let layouts := config.TimestampFormats (csv.processing r) ++ csv.defaultFormats in
  csv.defaultFormats
  = [ "2006-01-02T15:04:05Z"; "2006-01-02T15:04:05-07:00"; "2006-01-02 15:04:05";
      "01/02/2006 15:04:05"; "02/01/2006 15:04:05"; "2006-01-02T15:04:05.000Z";
      "2006-01-02" ]
  ∧ (∀ (i : nat) layout t,
       layouts !! i = Some layout →
       time_Parse layout token = Some t →
       (∀ (j : nat) earlier, (j < i)%nat → layouts !! j = Some earlier →
          time_Parse earlier token = None) →
       csv.parseTimestamp r s = Ok t)
  ∧ (∀ unix,
       (∀ layout, layout ∈ layouts → time_Parse layout token = None) →
       strconv.ParseInt token = Some unix →
       csv.parseTimestamp r s = Ok (time.Unix unix) ∧ - 2 ^ 63 ≤ unix < 2 ^ 63)
  ∧ (isOk (csv.parseTimestamp r s) = false ↔
       (∀ layout, layout ∈ layouts → time_Parse layout token = None)
       ∧ strconv.ParseInt token = None)
  ∧ (isOk (csv.parseTimestamp r s) = false →
       csv.parseTimestamp r s = Err (ErrCannotParseTimestamp token)).
Proof.
  intros token layouts.
  assert (Hshape : csv.parseTimestamp r s
    = match csv.tryFormats layouts token with
      | Some t => Ok t
      | None => match strconv.ParseInt token with
                | Some unix => Ok (time.Unix unix)
                | None => Err (ErrCannotParseTimestamp token)
                end
      end).
  { unfold csv.parseTimestamp, csv.parseDefaultTimestamp, layouts.
    fold token. rewrite tryFormats_app.
    by destruct (csv.tryFormats (config.TimestampFormats _) token). }
  split; [done |]. rewrite Hshape.
  split; [| split; [| split]].
  - intros i layout t Hi Ht Hearlier.
    by rewrite (tryFormats_first layouts token i layout t).
  - intros unix Hall Hint. apply tryFormats_None in Hall.
    rewrite Hall, Hint. split; [done |]. by apply ParseInt_int64 in Hint.
  - split.
    + intros Hfail. destruct (csv.tryFormats layouts token) eqn:Htry; [done |].
      split; [by apply tryFormats_None |].
      by destruct (strconv.ParseInt token).
    + intros [Hall Hint]. apply tryFormats_None in Hall. by rewrite Hall, Hint.
  - destruct (csv.tryFormats layouts token); [done |].
    by destruct (strconv.ParseInt token).
Qed.

End Timestamps.

(** ** The column resolver *)

Section Columns.

Context {golib : GoLib}.
Variable r : csv.Reader.

Lemma matchesDefaults_elem (colName : string) (defaults : list string) :
  csv.matchesDefaults colName defaults = true ↔ colName ∈ defaults.
Proof.
  induction defaults as [|d rest IH]; simpl.
  - split; [done |]. intros H. by apply elem_of_nil in H.
  - rewrite elem_of_cons. destruct (String.eqb_spec colName d) as [-> | Hne].
    + split; [by left | done].
    + rewrite IH. split; [by right |]. by intros [? | ?].
Qed.

Lemma matchesColumn_spec (colName configName : string) (defaults : list string) :
  csv.matchesColumn colName configName defaults = true ↔
  if decide (configName = "")
  then colName ∈ defaults
  else colName = strings_ToLower configName.
Proof.
  unfold csv.matchesColumn.
  destruct (decide (configName = "")) as [-> | Hne].
  - simpl. apply matchesDefaults_elem.
  - apply String.eqb_neq in Hne. rewrite Hne. simpl. apply String.eqb_eq.
Qed.

Lemma fieldIndex_headerStep (f : field) (i : Z) (col : string)
    (indices : csv.columnIndices) :
  fieldIndex f (csv.headerStep r i col indices)
  = if cellMatches r f col then i else fieldIndex f indices.
Proof.
  unfold csv.headerStep, cellMatches, configuredName, aliases.
  destruct f; simpl;
    repeat match goal with
           | |- context [if ?b then _ else _] => destruct b; simpl
           end; reflexivity.
Qed.

Lemma fieldIndex_headerLoop (f : field) (header : list string) (i : Z)
    (indices : csv.columnIndices) :
  fieldIndex f (csv.headerLoop r i header indices)
  = lastMatchFrom (cellMatches r f) i header (fieldIndex f indices).
Proof.
  revert i indices.
  induction header as [|col rest IH]; intros i indices; simpl; [done |].
  by rewrite IH, fieldIndex_headerStep.
Qed.

Lemma lastMatchFrom_none (matches : string → bool) (header : list string)
    (i cur : Z) :
  (∀ cell, cell ∈ header → matches cell = false) →
  lastMatchFrom matches i header cur = cur.
Proof.
  revert i cur.
  induction header as [|cell rest IH]; intros i cur Hnone; simpl; [done |].
  rewrite (Hnone cell) by (apply elem_of_cons; by left).
  apply IH. intros c Hc. apply Hnone, elem_of_cons. by right.
Qed.

Lemma lastMatchFrom_last (matches : string → bool) (header : list string)
    (i cur : Z) (k : nat) (cell : string) :
  header !! k = Some cell →
  matches cell = true →
  (∀ (j : nat) later, (k < j)%nat → header !! j = Some later →
     matches later = false) →
  lastMatchFrom matches i header cur = i + Z.of_nat k.
Proof.
  revert i cur k.
  induction header as [|c rest IH]; intros i cur k Hk Hcell Hlater; [done |].
  destruct k as [|k]; simpl in *.
  - injection Hk as ->. rewrite Hcell, lastMatchFrom_none; [lia |].
    intros later Hin. apply list_elem_of_lookup in Hin as [j Hj].
    apply (Hlater (S j)); [lia | done].
  - rewrite (IH (i + 1) _ k); [lia | done | done |].
    intros j later Hj Hlook. apply (Hlater (S j)); [lia | done].
Qed.

Lemma lastMatchFrom_cases (matches : string → bool) (header : list string)
    (i cur : Z) :
  (lastMatchFrom matches i header cur = cur
   ∧ ∀ cell, cell ∈ header → matches cell = false)
  ∨ ∃ (k : nat) cell, header !! k = Some cell ∧ matches cell = true
      ∧ (∀ (j : nat) later, (k < j)%nat → header !! j = Some later →
           matches later = false)
      ∧ lastMatchFrom matches i header cur = i + Z.of_nat k.
Proof.
  revert i cur.
  induction header as [|c rest IH]; intros i cur; simpl.
  - left. split; [done |]. intros cell H. by apply elem_of_nil in H.
  - destruct (IH (i + 1) (if matches c then i else cur))
      as [[Heq Hnone] | (k & cell & Hk & Hcell & Hlater & Heq)].
    + destruct (matches c) eqn:Hc.
      * right. exists 0%nat, c. repeat split; [done | |lia].
        intros [|j] later Hj Hlook; [lia |]. simpl in Hlook.
        apply Hnone. by eapply list_elem_of_lookup_2.
      * left. split; [done |]. intros cell Hin.
        apply elem_of_cons in Hin as [-> | Hin]; auto.
    + right. exists (S k), cell. repeat split; [done | done | | lia].
      intros [|j] later Hj Hlook; [lia |]. simpl in Hlook.
      apply (Hlater j); [lia | done].
Qed.

Lemma headerLoop_resolved (f : field) (header : list string) :
  fieldIndex f (csv.headerLoop r 0 header csv.unresolvedIndices) ≠ -1
  ↔ ∃ cell, cell ∈ header ∧ cellMatches r f cell = true.
Proof.
  rewrite fieldIndex_headerLoop.
  assert (Hinit : fieldIndex f csv.unresolvedIndices = -1) by by destruct f.
  rewrite Hinit.
  destruct (lastMatchFrom_cases (cellMatches r f) header 0 (-1))
    as [[Heq Hnone] | (k & cell & Hk & Hcell & _ & Heq)]; rewrite Heq.
  - split; [done |]. intros (cell & Hin & Hcell).
    rewrite Hnone in Hcell; done.
  - split; [| lia]. intros _. exists cell.
    split; [by eapply list_elem_of_lookup_2 | done].
Qed.

Lemma headerLoop_wellFormed (header : list string) :
  let indices := csv.headerLoop r 0 header csv.unresolvedIndices in
  ∀ f, -1 ≤ fieldIndex f indices.
Proof.
  intros indices f. unfold indices. rewrite fieldIndex_headerLoop.
  assert (Hinit : fieldIndex f csv.unresolvedIndices = -1) by by destruct f.
  rewrite Hinit.
  destruct (lastMatchFrom_cases (cellMatches r f) header 0 (-1))
    as [[Heq _] | (k & cell & _ & _ & _ & Heq)]; rewrite Heq; lia.
Qed.

(** C6. In a table with a header row, a field is resolved exactly when
    some header cell matches it; a cell matches a required field when
    its lower-cased text equals the lower-cased configured name if one
    is set, and otherwise is one of the default aliases of the field;
    resolution succeeds when the three required fields are resolved and
    fails with [MissingRequiredColumn] as soon as one of them is not. *)
Theorem findColumnIndices_header_resolution (header : list string)
    (rows : list (list string)) :
  config.HasHeader (csv.config r) = true →
  let indices := csv.headerLoop r 0 header csv.unresolvedIndices in
  (∀ f cell, f ∈ requiredFields →
     (cellMatches r f cell = true ↔
      if decide (configuredName r f = "")
      then strings_ToLower cell ∈ aliases f
      else strings_ToLower cell = strings_ToLower (configuredName r f)))
  ∧ (∀ f, fieldIndex f indices ≠ -1
          ↔ ∃ cell, cell ∈ header ∧ cellMatches r f cell = true)
  ∧ ((∀ f, f ∈ requiredFields →
        ∃ cell, cell ∈ header ∧ cellMatches r f cell = true) →
     csv.findColumnIndices r (header :: rows) = Ok indices)
  ∧ (∀ f, f ∈ requiredFields →
       (∀ cell, cell ∈ header → cellMatches r f cell = false) →
       ∃ e, csv.findColumnIndices r (header :: rows) = Err e
            ∧ conditionOf e = MissingRequiredColumn).
Proof.
  intros Hheader indices.
  assert (Hfind : csv.findColumnIndices r (header :: rows)
    = if (fieldIndex FTimestamp indices =? -1)
         || (fieldIndex FLatitude indices =? -1)
         || (fieldIndex FLongitude indices =? -1)
      then Err ErrMissingColumns else Ok indices).
  { unfold csv.findColumnIndices. by rewrite Hheader. }
  split; [| split; [| split]].
  - intros f cell Hf. unfold requiredFields in Hf.
    assert (Hm : cellMatches r f cell
      = csv.matchesColumn (strings_ToLower cell) (configuredName r f) (aliases f)).
    { repeat (apply elem_of_cons in Hf as [-> | Hf]; [done |]).
      by apply elem_of_nil in Hf. }
    rewrite Hm. apply matchesColumn_spec.
  - intros f. apply headerLoop_resolved.
  - intros Hall. rewrite Hfind.
    assert (Hres : ∀ f, f ∈ requiredFields → (fieldIndex f indices =? -1) = false).
    { intros f Hf. apply Z.eqb_neq, headerLoop_resolved, Hall, Hf. }
    rewrite !Hres; [done | | |]; unfold requiredFields;
      repeat (apply elem_of_cons; (by left) || right).
  - intros f Hf Hnone. exists ErrMissingColumns. split; [| done].
    rewrite Hfind.
    assert (Hunres : (fieldIndex f indices =? -1) = true).
    { apply Z.eqb_eq. destruct (decide (fieldIndex f indices = -1)) as [| Hne]; [done |].
      apply headerLoop_resolved in Hne as (cell & Hin & Hcell).
      rewrite Hnone in Hcell; done. }
    unfold requiredFields in Hf.
    repeat (apply elem_of_cons in Hf as [-> | Hf];
            [rewrite Hunres; by rewrite ?orb_true_r |]).
    by apply elem_of_nil in Hf.
Qed.

(** C10. In a table with a header row in which several cells match the
    same field, resolution gives the field the position of the last of
    them. *)
Theorem findColumnIndices_last_match_wins (header : list string)
    (rows : list (list string)) (indices : csv.columnIndices) (f : field)
    (k : nat) (cell : string) :
  config.HasHeader (csv.config r) = true →
  csv.findColumnIndices r (header :: rows) = Ok indices →
  header !! k = Some cell →
  cellMatches r f cell = true →
  (∀ (j : nat) later, (k < j)%nat → header !! j = Some later →
     cellMatches r f later = false) →
  fieldIndex f indices = Z.of_nat k.
Proof.
  intros Hheader Hfind Hk Hcell Hlater.
  unfold csv.findColumnIndices in Hfind. rewrite Hheader in Hfind.
  destruct (_ || _) in Hfind; [done |]. injection Hfind as <-.
  rewrite fieldIndex_headerLoop.
  by rewrite (lastMatchFrom_last _ header 0 _ k cell).
Qed.

End Columns.

(** ** The record validator *)

Section Records.

Context {golib : GoLib}.
Variable r : csv.Reader.

Lemma index_in_range {A : Type} (s : list A) (i : Z) :
  0 ≤ i → i < len s → ∃ a, index s i = Ok a.
Proof.
  intros Hi Hlen. unfold index, len in *.
  destruct (Z.ltb_spec i 0); [lia |].
  destruct (s !! Z.to_nat i) as [a |] eqn:Hlook; [by exists a |].
  apply lookup_ge_None in Hlook. lia.
Qed.

Lemma index_cases {A : Type} (s : list A) (i : Z) :
  (∃ a, index s i = Ok a) ∨ index s i = Panic.
Proof.
  unfold index. destruct (i <? 0); [by right |].
  destruct (s !! Z.to_nat i) as [a |]; [left; by exists a | by right].
Qed.

(** C7, as the code has it. Record validation fails with
    [InsufficientColumns] exactly when the length of the row does not
    exceed the largest of the three required indices. *)
Theorem parseRecord_insufficient_columns (record : list string)
    (indices : csv.columnIndices) (rowNum : Z) :
  csv.parseRecord r record indices rowNum = Err ErrInsufficientColumns
  ↔ len record ≤ max3 (csv.timestamp indices) (csv.latitude indices)
                   (csv.longitude indices).
Proof.
  unfold csv.parseRecord, max3.
  destruct (_ || _) eqn:Hguard.
  - split; [intros _ | done].
    apply orb_true_iff in Hguard as [Hguard | Hguard];
      [apply orb_true_iff in Hguard as [Hguard | Hguard] |];
      apply Z.leb_le in Hguard; lia.
  - apply orb_false_iff in Hguard as [Hguard Hlng].
    apply orb_false_iff in Hguard as [Hts Hlat].
    apply Z.leb_gt in Hts, Hlat, Hlng.
    split; [| lia]. intros Hfail. exfalso. revert Hfail.
    unfold mbind, outcome_bind, csv.parseFloatOr, csv.wrapErr.
    destruct (index_cases record (csv.timestamp indices)) as [[tsCell ->] | ->];
      simpl; try discriminate.
    destruct (csv.parseTimestamp r tsCell) as [ts | e |];
      simpl; try discriminate.
    destruct (index_cases record (csv.latitude indices)) as [[latCell ->] | ->];
      simpl; try discriminate.
    destruct (strconv_ParseFloat _) as [lat |]; simpl; try discriminate.
    destruct (index_cases record (csv.longitude indices)) as [[lngCell ->] | ->];
      simpl; try discriminate.
    destruct (strconv_ParseFloat _) as [lng |]; simpl; try discriminate.
    destruct (negb _ && _);
      [destruct (index_cases record (csv.title indices)) as [[c1 ->] | ->] |];
      simpl; try discriminate;
      (destruct (negb _ && _);
       [destruct (index_cases record (csv.description indices)) as [[c2 ->] | ->] |]);
      simpl; discriminate.
Qed.

End Records.

(** ** The ingestion orchestrator *)

Section Orchestrator.

Context {golib : GoLib}.
Variable r : csv.Reader.

Lemma parseTimestamp_no_panic (s : string) : csv.parseTimestamp r s ≠ Panic.
Proof.
  unfold csv.parseTimestamp, csv.parseDefaultTimestamp.
  repeat match goal with
         | |- context [match ?x with _ => _ end] => destruct x
         end; done.
Qed.

Lemma parseRecord_no_panic (record : list string) (indices : csv.columnIndices)
    (rowNum : Z) :
  wellFormedIndices indices →
  csv.parseRecord r record indices rowNum ≠ Panic.
Proof.
  intros (Hts & Hlat & Hlng & Htitle & Hdesc). unfold csv.parseRecord.
  destruct (_ || _) eqn:Hguard; [done |].
  apply orb_false_iff in Hguard as [Hguard Hlng'].
  apply orb_false_iff in Hguard as [Hts' Hlat'].
  apply Z.leb_gt in Hts', Hlat', Hlng'.
  destruct (index_in_range record _ Hts Hts') as [tsCell ->].
  destruct (index_in_range record _ Hlat Hlat') as [latCell ->].
  destruct (index_in_range record _ Hlng Hlng') as [lngCell ->].
  unfold mbind, outcome_bind, csv.parseFloatOr, csv.wrapErr.
  pose proof (parseTimestamp_no_panic tsCell) as Hnp.
  destruct (csv.parseTimestamp r tsCell) as [ts | e |]; simpl; [| done | done].
  destruct (strconv_ParseFloat _); simpl; [| done].
  destruct (strconv_ParseFloat _); simpl; [| done].
  all: destruct (negb (csv.title indices =? -1) && _) eqn:Ht; simpl.
  all: try (apply andb_true_iff in Ht as [Ht1 Ht2];
            apply negb_true_iff, Z.eqb_neq in Ht1; apply Z.ltb_lt in Ht2;
            destruct (index_in_range record (csv.title indices)) as [c1 ->];
            [lia | done |]; simpl).
  all: destruct (negb (csv.description indices =? -1) && _) eqn:Hd; simpl.
  all: try (apply andb_true_iff in Hd as [Hd1 Hd2];
            apply negb_true_iff, Z.eqb_neq in Hd1; apply Z.ltb_lt in Hd2;
            destruct (index_in_range record (csv.description indices)) as [c2 ->];
            [lia | done |]; simpl).
  all: done.
Qed.

Lemma findColumnIndices_wellFormed (rows : list (list string))
    (indices : csv.columnIndices) :
  csv.findColumnIndices r rows = Ok indices → wellFormedIndices indices.
Proof.
  unfold csv.findColumnIndices.
  set (found := match config.HasHeader (csv.config r), rows with
                | true, header :: _ => csv.headerLoop r 0 header csv.unresolvedIndices
                | _, _ => csv.positionalIndices rows
                end).
  assert (Hall : ∀ f, -1 ≤ fieldIndex f found).
  { subst found. destruct (config.HasHeader (csv.config r)), rows as [|header rest];
      try apply headerLoop_wellFormed;
      intros f; unfold csv.positionalIndices; destruct f; simpl;
      repeat match goal with
             | |- context [if ?b then _ else _] => destruct b
             end; lia. }
  destruct (_ || _) eqn:Hguard; [done |]. intros [= <-].
  apply orb_false_iff in Hguard as [Hguard Hlng].
  apply orb_false_iff in Hguard as [Hts Hlat].
  apply Z.eqb_neq in Hts, Hlat, Hlng.
  pose proof (Hall FTimestamp). pose proof (Hall FLatitude).
  pose proof (Hall FLongitude). pose proof (Hall FTitle).
  pose proof (Hall FDescription). simpl in *.
  unfold wellFormedIndices. lia.
Qed.

Lemma parseRows_spec (indices : csv.columnIndices) (startRow : Z)
    (rows : list (list string)) (i : Z) (points : gps.Points)
    (log : list csv.warning) :
  wellFormedIndices indices →
  csv.parseRows r indices startRow i rows points log
  = Ok (points ++ validPoints r indices rows,
        log ++ rowWarnings r indices (i + startRow + 1) rows).
Proof.
  intros Hwf. revert i points log.
  induction rows as [|record rest IH]; intros i points log; simpl.
  - by rewrite !app_nil_r.
  - unfold validPoints, validPoint, rowFailure. simpl.
    assert (Hnum : csv.parseRecord r record indices (i + startRow + 1)
                   = csv.parseRecord r record indices 0) by reflexivity.
    rewrite Hnum.
    pose proof (parseRecord_no_panic record indices 0 Hwf) as Hnp.
    destruct (csv.parseRecord r record indices 0) as [point | e |]; [| | done].
    + rewrite IH. unfold validPoints, validPoint.
      replace (i + 1 + startRow + 1) with (i + startRow + 1 + 1) by lia.
      by rewrite <- app_assoc.
    + rewrite IH. unfold validPoints, validPoint.
      replace (i + 1 + startRow + 1) with (i + startRow + 1 + 1) by lia.
      by rewrite <- app_assoc.
Qed.

Lemma validPoints_length (indices : csv.columnIndices) (rows : list (list string)) :
  length (validPoints r indices rows) = validRowCount r indices rows.
Proof.
  unfold validPoints, validRowCount.
  induction rows as [|record rest IH]; [done |].
  change (omap (validPoint r indices) (record :: rest))
    with (match validPoint r indices record with
          | Some point => point :: omap (validPoint r indices) rest
          | None => omap (validPoint r indices) rest
          end).
  destruct (validPoint r indices record) as [point |] eqn:Hvalid.
  - rewrite filter_cons_True by (rewrite Hvalid; eauto).
    cbn [length]. by rewrite IH.
  - rewrite filter_cons_False; [done |]. rewrite Hvalid. by intros [? ?].
Qed.

Lemma parseRecords_shape (records : list (list string)) :
  let rows := csv.skipRows r records in
  let startRow := if config.HasHeader (csv.config r) then 1 else 0 in
  csv.parseRecords r records
  = if len rows <? 1 then Err ErrNoDataRows
    else if config.HasHeader (csv.config r) && (len rows <? 2)
    then Err ErrNeedHeaderAndDataRow
    else match csv.findColumnIndices r rows with
         | Ok indices =>
             let valid := validPoints r indices (csv.sliceFrom rows startRow) in
             Ok (if config.RemoveDuplicates (csv.processing r)
                 then gps.RemoveDuplicates fmt_Sprintf_6f valid else valid,
                 rowWarnings r indices (startRow + 1) (csv.sliceFrom rows startRow))
         | Err e => Err e
         | Panic => Panic
         end.
Proof.
  intros rows startRow. unfold csv.parseRecords. fold rows.
  destruct (len rows <? 1); [done |].
  destruct (config.HasHeader (csv.config r) && (len rows <? 2)); [done |].
  fold startRow. unfold mbind, outcome_bind.
  destruct (csv.findColumnIndices r rows) as [indices | e |] eqn:Hfind; [| done | done].
  rewrite parseRows_spec by by eapply findColumnIndices_wellFormed.
  simpl. do 3 f_equal.
Qed.

(** C1, as the code has it. Once the rows left after skipping pass the
    size check and column resolution succeeds, [parseRecords] does not
    fail: it returns the points of exactly the rows that pass record
    validation, in row order, deduplicated when so configured, and
    prints one warning per failing row with its number and reason. With
    duplicate removal off the result has as many points as there are
    passing rows, zero included; with it on, at most as many. *)
Theorem parseRecords_recovers_row_failures (records : list (list string))
    (indices : csv.columnIndices) :
  let rows := csv.skipRows r records in
  let startRow := if config.HasHeader (csv.config r) then 1 else 0 in
  let dataRows := csv.sliceFrom rows startRow in
  let valid := validPoints r indices dataRows in
  1 ≤ len rows →
  (config.HasHeader (csv.config r) = true → 2 ≤ len rows) →
  csv.findColumnIndices r rows = Ok indices →
  ∃ points,
    csv.parseRecords r records
    = Ok (points, rowWarnings r indices (startRow + 1) dataRows)
    ∧ points = (if config.RemoveDuplicates (csv.processing r)
                then gps.RemoveDuplicates fmt_Sprintf_6f valid else valid)
    ∧ length valid = validRowCount r indices dataRows
    ∧ (length points ≤ validRowCount r indices dataRows)%nat
    ∧ (config.RemoveDuplicates (csv.processing r) = false →
       length points = validRowCount r indices dataRows).
Proof.
  intros rows startRow dataRows valid Hrows Hheader Hfind.
  eexists. split; [| split; [reflexivity |]].
  - rewrite parseRecords_shape. fold rows startRow. rewrite Hfind.
    destruct (Z.ltb_spec (len rows) 1); [lia |].
    destruct (config.HasHeader (csv.config r)); simpl; [| done].
    destruct (Z.ltb_spec (len rows) 2); [| done].
    specialize (Hheader eq_refl). lia.
  - pose proof (validPoints_length indices dataRows) as Hlen. fold valid in Hlen.
    split; [exact Hlen |]. split.
    + destruct (config.RemoveDuplicates (csv.processing r)); [| lia].
      rewrite <- Hlen.
      apply (RemoveDuplicates_loop_length fmt_Sprintf_6f valid ∅ []).
    + by intros ->.
Qed.

(** C3, as the code has it. The skip count is applied only when it is
    positive and smaller than the number of raw rows; any other count,
    one that would remove every row included, leaves the table as it
    is. Ingestion fails with
    [EmptyOrInsufficientData] exactly when the rows then left are none,
    or, a header being declared, fewer than two. *)
Theorem parseRecords_skip_and_size_check (records : list (list string)) :
  let skip := config.SkipRows (csv.config r) in
  let rows := csv.skipRows r records in
  rows = (if bool_decide (0 < skip ∧ skip < len records)
          then drop (Z.to_nat skip) records else records)
  ∧ ((∃ e, csv.parseRecords r records = Err e
           ∧ conditionOf e = EmptyOrInsufficientData)
     ↔ len rows < 1 ∨ (config.HasHeader (csv.config r) = true ∧ len rows < 2)).
Proof.
  intros skip rows.
  assert (Hskip : rows = if (0 <? skip) && (skip <? len records)
                         then drop (Z.to_nat skip) records else records)
    by reflexivity.
  split.
  - rewrite Hskip. case_bool_decide as Hrange.
    + destruct Hrange as [H1 H2].
      destruct (Z.ltb_spec 0 skip); [| lia].
      destruct (Z.ltb_spec skip (len records)); [done | lia].
    + destruct (Z.ltb_spec 0 skip); [| done].
      destruct (Z.ltb_spec skip (len records)); [| done].
      exfalso. apply Hrange. lia.
  - rewrite parseRecords_shape. fold rows.
    destruct (Z.ltb_spec (len rows) 1) as [Hlt1 | Hge1].
    { split; [intros _; by left |]. intros _. by exists ErrNoDataRows. }
    destruct (config.HasHeader (csv.config r)) eqn:Hheader; simpl.
    + destruct (Z.ltb_spec (len rows) 2) as [Hlt2 | Hge2].
      { split; [intros _; by right |]. intros _. by exists ErrNeedHeaderAndDataRow. }
      split; [| intros [? | [_ ?]]; lia].
      intros (e & Herr & Hcond).
      destruct (csv.findColumnIndices r rows) as [indices | e' |] eqn:Hfind;
        [done | | done].
      injection Herr as <-. unfold csv.findColumnIndices in Hfind.
      destruct (_ || _) in Hfind; [by injection Hfind as <- | done].
    + split; [| intros [? | [? _]]; [lia | done]].
      intros (e & Herr & Hcond).
      destruct (csv.findColumnIndices r rows) as [indices | e' |] eqn:Hfind;
        [done | | done].
      injection Herr as <-. unfold csv.findColumnIndices in Hfind.
      destruct (_ || _) in Hfind; [by injection Hfind as <- | done].
Qed.

End Orchestrator.

(** * Further properties of the packages *)

(** ** [RemoveDuplicates]: what is kept *)

Section RemoveDuplicatesMore.

Variable Sprintf_6f : float → string.

Local Abbreviation key := (gps.coordKey Sprintf_6f) (only parsing).
Local Abbreviation loop := (gps.RemoveDuplicates_loop Sprintf_6f) (only parsing).

Lemma firstOccurrences_sublist full rest (i : nat) :
  firstOccurrences key full i rest `sublist_of` rest.
Proof.
  revert i. induction rest as [|x rest IH]; intros i; simpl; [done |].
  destruct (firstWithKey key full i x).
  - by apply sublist_skip.
  - by apply sublist_cons.
Qed.

Lemma RemoveDuplicates_loop_keys p seen result :
  seenKeysOf key seen result →
  ∀ k, k ∈ key <$> loop seen result p ↔ k ∈ key <$> result ∨ k ∈ key <$> p.
Proof.
  revert seen result.
  induction p as [|x rest IH]; intros seen result Hseen k; simpl.
  - rewrite elem_of_nil. tauto.
  - rewrite elem_of_cons.
    destruct (default false (seen !! key x)) eqn:Hx; simpl.
    + rewrite (IH seen result Hseen k). apply Hseen in Hx.
      split; [tauto |]. intros [H | [-> | H]]; tauto.
    + rewrite (IH _ _ (seenKeysOf_insert Sprintf_6f seen result x Hseen) k).
      rewrite fmap_app, elem_of_app. simpl. rewrite list_elem_of_singleton.
      tauto.
Qed.

Lemma RemoveDuplicates_loop_scan p seen result prefix :
  seenKeysOf key seen prefix →
  ∃ seen', seenKeysOf key seen' (prefix ++ p)
    ∧ ∀ q, loop seen result (p ++ q) = loop seen' (loop seen result p) q.
Proof.
  revert seen result prefix.
  induction p as [|x rest IH]; intros seen result prefix Hseen.
  - exists seen. by rewrite app_nil_r.
  - simpl.
    destruct (default false (seen !! key x)) eqn:Hx; simpl.
    + destruct (IH seen result (prefix ++ [x])) as (seen' & Hseen' & Heq).
      { by apply seenKeysOf_seen. }
      exists seen'. by rewrite <- app_assoc in Hseen'.
    + destruct (IH (<[key x := true]> seen) (result ++ [x]) (prefix ++ [x]))
        as (seen' & Hseen' & Heq).
      { by apply seenKeysOf_insert. }
      exists seen'. by rewrite <- app_assoc in Hseen'.
Qed.

(** X1. The result of [RemoveDuplicates] has pairwise distinct
    coordinate keys, loses no key of the input, and keeps its points in
    the order of the input. *)
Theorem RemoveDuplicates_distinct_complete_ordered (p : gps.Points) :
  NoDup (gps.coordKey Sprintf_6f <$> gps.RemoveDuplicates Sprintf_6f p)
  ∧ (∀ k, k ∈ gps.coordKey Sprintf_6f <$> gps.RemoveDuplicates Sprintf_6f p
          ↔ k ∈ gps.coordKey Sprintf_6f <$> p)
  ∧ gps.RemoveDuplicates Sprintf_6f p `sublist_of` p.
Proof.
  split; [| split].
  - apply RemoveDuplicates_loop_NoDup; [apply seenKeysOf_empty | apply NoDup_nil_2].
  - intros k. unfold gps.RemoveDuplicates.
    rewrite (RemoveDuplicates_loop_keys p ∅ [] (seenKeysOf_empty Sprintf_6f) k).
    simpl. rewrite elem_of_nil. tauto.
  - unfold gps.RemoveDuplicates.
    rewrite (RemoveDuplicates_loop_firstOccurrences Sprintf_6f p ∅ [] []
               (seenKeysOf_empty Sprintf_6f)).
    apply firstOccurrences_sublist.
Qed.

(** X2. [RemoveDuplicates] keeps the first point of the collection: the
    result has the same first point as the input, and is empty only when
    the input is. *)
Theorem RemoveDuplicates_keeps_First (p : gps.Points) :
  gps.First (gps.RemoveDuplicates Sprintf_6f p) = gps.First p
  ∧ gps.IsEmpty (gps.RemoveDuplicates Sprintf_6f p) = gps.IsEmpty p.
Proof.
  destruct p as [|x rest]; [done |].
  unfold gps.RemoveDuplicates. simpl. rewrite lookup_empty. simpl.
  rewrite (RemoveDuplicates_loop_firstOccurrences Sprintf_6f rest _ [x] [x]).
  - done.
  - apply (seenKeysOf_insert Sprintf_6f ∅ [] x), seenKeysOf_empty.
Qed.

(** X3. Deduplicating a collection followed by another gives the
    deduplicated first collection, followed by the points of the second
    whose key occurs neither in the first nor earlier in the second. *)
Theorem RemoveDuplicates_app (p q : gps.Points) :
  gps.RemoveDuplicates Sprintf_6f (p ++ q)
  = gps.RemoveDuplicates Sprintf_6f p
    ++ firstOccurrences (gps.coordKey Sprintf_6f) (p ++ q) (length p) q.
Proof.
  unfold gps.RemoveDuplicates.
  destruct (RemoveDuplicates_loop_scan p ∅ [] [] (seenKeysOf_empty Sprintf_6f))
    as (seen' & Hseen' & Heq).
  rewrite Heq.
  by apply RemoveDuplicates_loop_firstOccurrences.
Qed.

End RemoveDuplicatesMore.

(** ** [TimeRange]: order of the ends, effect of the order of the points *)

Lemma TimeRange_ends (p : gps.Points) :
  p ≠ [] →
  ∃ a b, a ∈ p ∧ b ∈ p
    ∧ gps.TimeRange p = (gps.Timestamp a, gps.Timestamp b)
    ∧ ∀ q, q ∈ p →
        time.Before (gps.Timestamp q) (gps.Timestamp a) = false
        ∧ time.Before (gps.Timestamp b) (gps.Timestamp q) = false.
Proof.
  destruct p as [|p0 rest]; [done | intros _]. simpl.
  destruct (TimeRange_loop_spec rest (gps.Timestamp p0) (gps.Timestamp p0))
    as (s & e & Heq & Hs & He & Hbs & Hae & Hall).
  rewrite After_Before in Hae.
  assert (Ha : ∃ a, a ∈ p0 :: rest ∧ gps.Timestamp a = s).
  { destruct Hs as [-> | Hs]; [exists p0; split; [apply elem_of_cons; by left | done] |].
    apply list_elem_of_fmap in Hs as (a & -> & Ha).
    exists a. split; [apply elem_of_cons; by right | done]. }
  assert (Hb : ∃ b, b ∈ p0 :: rest ∧ gps.Timestamp b = e).
  { destruct He as [-> | He]; [exists p0; split; [apply elem_of_cons; by left | done] |].
    apply list_elem_of_fmap in He as (b & -> & Hb).
    exists b. split; [apply elem_of_cons; by right | done]. }
  destruct Ha as (a & Ha & <-), Hb as (b & Hb & <-).
  exists a, b. split; [done |]. split; [done |]. split; [done |].
  intros q Hq. apply elem_of_cons in Hq as [-> | Hq]; [done |].
  destruct (Hall q Hq) as [H1 H2]. by rewrite After_Before in H2.
Qed.

(** X4. The start returned by [TimeRange] is never after the end; and
    two collections holding the same points, in whatever order, have
    the same time range as instants. *)
Theorem TimeRange_ordered_and_order_independent (p p' : gps.Points) :
  time.Before (gps.TimeRange p).2 (gps.TimeRange p).1 = false
  ∧ (p ≡ₚ p' →
     sameInstant (gps.TimeRange p).1 (gps.TimeRange p').1 = true
     ∧ sameInstant (gps.TimeRange p).2 (gps.TimeRange p').2 = true).
Proof.
  split.
  - destruct (decide (p = [])) as [-> | Hne]; [done |].
    destruct (TimeRange_ends p Hne) as (a & b & Ha & Hb & -> & Hall). simpl.
    by destruct (Hall a Ha).
  - intros Hperm. destruct (decide (p = [])) as [-> | Hne].
    { apply Permutation_nil_l in Hperm as ->.
      split; unfold sameInstant; by rewrite Before_irrefl. }
    assert (Hne' : p' ≠ []).
    { intros ->. by apply Permutation_nil_r in Hperm. }
    destruct (TimeRange_ends p Hne) as (a & b & Ha & Hb & -> & Hall).
    destruct (TimeRange_ends p' Hne') as (a' & b' & Ha' & Hb' & -> & Hall').
    simpl. unfold sameInstant.
    rewrite <- Hperm in Ha', Hb'. rewrite Hperm in Ha, Hb.
    destruct (Hall a' Ha') as [H1 _], (Hall b' Hb') as [_ H2].
    destruct (Hall' a Ha) as [H3 _], (Hall' b Hb) as [_ H4].
    by rewrite H1, H2, H3, H4.
Qed.

(** X5. On a collection in chronological order, [TimeRange] returns the
    timestamp of the first point and the instant of the last one. *)
Theorem TimeRange_of_chronological (p : gps.Points) (first last_ : gps.Point) :
  chronological p →
  gps.First p = Some first →
  gps.Last p = Some last_ →
  (gps.TimeRange p).1 = gps.Timestamp first
  ∧ sameInstant (gps.TimeRange p).2 (gps.Timestamp last_) = true.
Proof.
  intros Hchron Hfirst Hlast.
  destruct p as [|p0 rest]; [done |]. injection Hfirst as ->.
  split.
  - simpl.
    assert (Hloop : ∀ rest' start end_,
              (∀ q, q ∈ rest' → time.Before (gps.Timestamp q) start = false) →
              (gps.TimeRange_loop start end_ rest').1 = start).
    { induction rest' as [|x rest' IH]; intros start end_ Hall; [done |].
      simpl. rewrite (Hall x) by (apply elem_of_cons; by left).
      apply IH. intros q Hq. apply Hall, elem_of_cons. by right. }
    apply Hloop. intros q Hq.
    apply list_elem_of_lookup in Hq as [i Hi].
    apply (Hchron 0%nat (S i) first q); [lia | done | done].
  - destruct (TimeRange_ends (first :: rest)) as (a & b & Ha & Hb & -> & Hall);
      [done |].
    simpl. unfold sameInstant.
    assert (Hin : last_ ∈ first :: rest).
    { unfold gps.Last in Hlast. rewrite last_lookup in Hlast.
      by eapply list_elem_of_lookup_2. }
    destruct (Hall last_ Hin) as [_ H1]. rewrite H1. simpl.
    apply negb_true_iff.
    apply list_elem_of_lookup in Hb as [i Hi].
    unfold gps.Last in Hlast. rewrite last_lookup in Hlast.
    pose proof (lookup_lt_Some _ _ _ Hi) as Hlt.
    destruct (decide (i = pred (length (first :: rest)))) as [-> | Hne].
    + rewrite Hi in Hlast. injection Hlast as ->. apply Before_irrefl.
    + apply (Hchron i (pred (length (first :: rest))) b last_); [| done | done].
      simpl in *. lia.
Qed.

(** ** [Bounds]: comparisons of floating-point numbers *)

Lemma not_nan_Prim2SF (x : float) :
  PrimFloat.is_nan x = false → Prim2SF x ≠ S754_nan.
Proof.
  unfold PrimFloat.is_nan. rewrite FloatAxioms.eqb_spec. intros H Hnan.
  rewrite Hnan in H. discriminate H.
Qed.

Lemma nan_Prim2SF (x : float) :
  PrimFloat.is_nan x = true → Prim2SF x = S754_nan.
Proof.
  unfold PrimFloat.is_nan. rewrite FloatAxioms.eqb_spec.
  destruct (Prim2SF x) as [s | s | | s m e]; try done;
    unfold SFeqb, SFcompare; try (by destruct s).
  destruct s; rewrite Z.compare_refl;
    change (Pos.compare_cont Eq m m) with (m ?= m)%positive;
    by rewrite Pos.compare_refl.
Qed.

Lemma SFltb_rank (f1 f2 : spec_float) :
  f1 ≠ S754_nan → f2 ≠ S754_nan →
  SFltb f1 f2 = true ↔ rankLt (floatRank f1) (floatRank f2).
Proof.
  intros H1 H2. unfold SFltb, SFcompare, rankLt.
  destruct f1 as [s1 | s1 | | s1 m1 e1], f2 as [s2 | s2 | | s2 m2 e2];
    try done; try destruct s1; try destruct s2; simpl;
    try (split; [done | lia]); try (split; [lia | done]);
    try (split; [intros _; lia | done]).
  - change (Pos.compare_cont Eq m1 m2) with (m1 ?= m2)%positive.
    destruct (Z.compare_spec e1 e2); try destruct (Pos.compare_spec m1 m2);
      simpl; split; (done || lia).
  - change (Pos.compare_cont Eq m1 m2) with (m1 ?= m2)%positive.
    destruct (Z.compare_spec e1 e2); try destruct (Pos.compare_spec m1 m2);
      simpl; split; (done || lia).
Qed.

Lemma ltb_rank (x y : float) :
  PrimFloat.is_nan x = false → PrimFloat.is_nan y = false →
  PrimFloat.ltb x y = true ↔ rankLt (floatRank (Prim2SF x)) (floatRank (Prim2SF y)).
Proof.
  intros Hx Hy. rewrite FloatAxioms.ltb_spec.
  apply SFltb_rank; by apply not_nan_Prim2SF.
Qed.

Lemma ltb_nan_l (x y : float) :
  PrimFloat.is_nan x = true → PrimFloat.ltb x y = false.
Proof.
  intros Hx. rewrite FloatAxioms.ltb_spec, (nan_Prim2SF x Hx). done.
Qed.

Lemma ltb_nan_r (x y : float) :
  PrimFloat.is_nan y = true → PrimFloat.ltb x y = false.
Proof.
  intros Hy. rewrite FloatAxioms.ltb_spec, (nan_Prim2SF y Hy).
  unfold SFltb, SFcompare. by destruct (Prim2SF x).
Qed.

Lemma ltb_not_nan (x y : float) :
  PrimFloat.ltb x y = true →
  PrimFloat.is_nan x = false ∧ PrimFloat.is_nan y = false.
Proof.
  intros H. split.
  - destruct (PrimFloat.is_nan x) eqn:Hx; [| done].
    by rewrite (ltb_nan_l x y Hx) in H.
  - destruct (PrimFloat.is_nan y) eqn:Hy; [| done].
    by rewrite (ltb_nan_r x y Hy) in H.
Qed.

Lemma ltb_irrefl (x : float) : PrimFloat.ltb x x = false.
Proof.
  destruct (PrimFloat.ltb x x) eqn:H; [| done].
  destruct (ltb_not_nan x x H) as [Hx _].
  apply (ltb_rank x x Hx Hx) in H. unfold rankLt in H. lia.
Qed.

Lemma ltb_asym (x y : float) :
  PrimFloat.ltb x y = true → PrimFloat.ltb y x = false.
Proof.
  intros H. destruct (ltb_not_nan x y H) as [Hx Hy].
  destruct (PrimFloat.ltb y x) eqn:H'; [| done].
  apply (ltb_rank x y Hx Hy) in H. apply (ltb_rank y x Hy Hx) in H'.
  unfold rankLt in *. lia.
Qed.

Lemma notLtb_trans (x y z : float) :
  PrimFloat.is_nan y = false →
  PrimFloat.ltb y x = false → PrimFloat.ltb z y = false →
  PrimFloat.ltb z x = false.
Proof.
  intros Hy Hyx Hzy. destruct (PrimFloat.ltb z x) eqn:Hzx; [| done].
  destruct (ltb_not_nan z x Hzx) as [Hz Hx].
  apply (ltb_rank z x Hz Hx) in Hzx.
  assert (H1 : ¬ rankLt (floatRank (Prim2SF y)) (floatRank (Prim2SF x))).
  { intros H. apply (ltb_rank y x Hy Hx) in H. congruence. }
  assert (H2 : ¬ rankLt (floatRank (Prim2SF z)) (floatRank (Prim2SF y))).
  { intros H. apply (ltb_rank z y Hz Hy) in H. congruence. }
  unfold rankLt in *. lia.
Qed.

(** ** [Bounds] *)

Lemma Bounds_loop_folds (rest : gps.Points) (minLat maxLat minLng maxLng : float) :
  gps.Bounds_loop minLat maxLat minLng maxLng rest
  = (foldl minStep minLat (gps.Latitude <$> rest),
     foldl maxStep maxLat (gps.Latitude <$> rest),
     foldl minStep minLng (gps.Longitude <$> rest),
     foldl maxStep maxLng (gps.Longitude <$> rest)).
Proof.
  revert minLat maxLat minLng maxLng.
  induction rest as [|point rest IH]; intros; simpl; [done |].
  by rewrite IH.
Qed.

Lemma foldl_step_elem (step : float → float → float) (m : float) (l : list float) :
  (∀ a x, step a x = a ∨ step a x = x) →
  foldl step m l ∈ m :: l.
Proof.
  intros Hstep. revert m.
  induction l as [|x l IH]; intros m; simpl; [apply elem_of_cons; by left |].
  specialize (IH (step m x)). apply elem_of_cons in IH as [-> | IH].
  - destruct (Hstep m x) as [-> | ->]; apply elem_of_cons;
      [by left | right; apply elem_of_cons; by left].
  - do 2 (apply elem_of_cons; right). done.
Qed.

Lemma minStep_cases (a x : float) : minStep a x = a ∨ minStep a x = x.
Proof. unfold minStep. destruct (PrimFloat.ltb x a); auto. Qed.

Lemma maxStep_cases (a x : float) : maxStep a x = a ∨ maxStep a x = x.
Proof. unfold maxStep. destruct (PrimFloat.ltb a x); auto. Qed.

Lemma minStep_not_nan (m x : float) :
  PrimFloat.is_nan m = false → PrimFloat.is_nan (minStep m x) = false.
Proof.
  intros Hm. unfold minStep. destruct (PrimFloat.ltb x m) eqn:H; [| done].
  by destruct (ltb_not_nan x m H).
Qed.

Lemma maxStep_not_nan (m x : float) :
  PrimFloat.is_nan m = false → PrimFloat.is_nan (maxStep m x) = false.
Proof.
  intros Hm. unfold maxStep. destruct (PrimFloat.ltb m x) eqn:H; [| done].
  by destruct (ltb_not_nan m x H).
Qed.

Lemma minStep_nan (m x : float) :
  PrimFloat.is_nan m = true → minStep m x = m.
Proof. intros Hm. unfold minStep. by rewrite (ltb_nan_r x m Hm). Qed.

Lemma maxStep_nan (m x : float) :
  PrimFloat.is_nan m = true → maxStep m x = m.
Proof. intros Hm. unfold maxStep. by rewrite (ltb_nan_l m x Hm). Qed.

Lemma foldl_minStep_lower (l : list float) (m : float) :
  PrimFloat.is_nan m = false →
  PrimFloat.ltb m (foldl minStep m l) = false
  ∧ ∀ x, x ∈ l → PrimFloat.ltb x (foldl minStep m l) = false.
Proof.
  revert m. induction l as [|y l IH]; intros m Hm; simpl.
  - split; [apply ltb_irrefl |]. intros x Hx. by apply elem_of_nil in Hx.
  - destruct (IH (minStep m y) (minStep_not_nan m y Hm)) as [Hstep Hall].
    assert (Hm' : PrimFloat.ltb m (minStep m y) = false
                  ∧ PrimFloat.ltb y (minStep m y) = false).
    { unfold minStep. destruct (PrimFloat.ltb y m) eqn:Hlt.
      - split; [by apply ltb_asym | apply ltb_irrefl].
      - split; [apply ltb_irrefl | done]. }
    split.
    + apply (notLtb_trans _ (minStep m y) _);
        [by apply minStep_not_nan | done | apply Hm'].
    + intros x Hx. apply elem_of_cons in Hx as [-> | Hx]; [| by apply Hall].
      apply (notLtb_trans _ (minStep m y) _);
        [by apply minStep_not_nan | done | apply Hm'].
Qed.

Lemma foldl_maxStep_upper (l : list float) (m : float) :
  PrimFloat.is_nan m = false →
  PrimFloat.ltb (foldl maxStep m l) m = false
  ∧ ∀ x, x ∈ l → PrimFloat.ltb (foldl maxStep m l) x = false.
Proof.
  revert m. induction l as [|y l IH]; intros m Hm; simpl.
  - split; [apply ltb_irrefl |]. intros x Hx. by apply elem_of_nil in Hx.
  - destruct (IH (maxStep m y) (maxStep_not_nan m y Hm)) as [Hstep Hall].
    assert (Hm' : PrimFloat.ltb (maxStep m y) m = false
                  ∧ PrimFloat.ltb (maxStep m y) y = false).
    { unfold maxStep. destruct (PrimFloat.ltb m y) eqn:Hlt.
      - split; [by apply ltb_asym | apply ltb_irrefl].
      - split; [apply ltb_irrefl | done]. }
    split.
    + apply (notLtb_trans _ (maxStep m y) _);
        [by apply maxStep_not_nan | apply Hm' | done].
    + intros x Hx. apply elem_of_cons in Hx as [-> | Hx]; [| by apply Hall].
      apply (notLtb_trans _ (maxStep m y) _);
        [by apply maxStep_not_nan | apply Hm' | done].
Qed.

Lemma foldl_fixed (step : float → float → float) (m : float) (l : list float) :
  (∀ x, step m x = m) → foldl step m l = m.
Proof.
  intros Hfix. induction l as [|x l IH]; simpl; [done |]. by rewrite Hfix.
Qed.

Lemma foldl_not_nan (step : float → float → float) (m : float) (l : list float) :
  (∀ a x, PrimFloat.is_nan a = false → PrimFloat.is_nan (step a x) = false) →
  PrimFloat.is_nan m = false → PrimFloat.is_nan (foldl step m l) = false.
Proof.
  intros Hstep. revert m. induction l as [|x l IH]; intros m Hm; simpl; auto.
Qed.

(** X6. Each of the four bounds of a non-empty collection is the
    respective coordinate of one of its points; the bounds of the empty
    collection are four zeros. *)
Theorem Bounds_are_coordinates (p : gps.Points) :
  (p = [] → gps.Bounds p = (0%float, 0%float, 0%float, 0%float))
  ∧ (p ≠ [] →
     (gps.Bounds p).1.1.1 ∈ gps.Latitude <$> p
     ∧ (gps.Bounds p).1.1.2 ∈ gps.Latitude <$> p
     ∧ (gps.Bounds p).1.2 ∈ gps.Longitude <$> p
     ∧ (gps.Bounds p).2 ∈ gps.Longitude <$> p).
Proof.
  split; [by intros -> |].
  destruct p as [|p0 rest]; [done | intros _].
  unfold gps.Bounds. rewrite Bounds_loop_folds. simpl.
  repeat split; apply foldl_step_elem;
    auto using minStep_cases, maxStep_cases.
Qed.

(** X7. When no coordinate of the collection is NaN, the bounds enclose
    every point: no latitude is below the minimum or above the maximum,
    and likewise for the longitudes. *)
Theorem Bounds_enclose (p : gps.Points) (q : gps.Point) :
  noNaN p →
  q ∈ p →
  PrimFloat.ltb (gps.Latitude q) (gps.Bounds p).1.1.1 = false
  ∧ PrimFloat.ltb (gps.Bounds p).1.1.2 (gps.Latitude q) = false
  ∧ PrimFloat.ltb (gps.Longitude q) (gps.Bounds p).1.2 = false
  ∧ PrimFloat.ltb (gps.Bounds p).2 (gps.Longitude q) = false.
Proof.
  intros Hnan Hq. destruct p as [|p0 rest]; [by apply elem_of_nil in Hq |].
  unfold gps.Bounds. rewrite Bounds_loop_folds. simpl.
  destruct (Hnan p0) as [Hlat0 Hlng0]; [apply elem_of_cons; by left |].
  destruct (foldl_minStep_lower (gps.Latitude <$> rest) _ Hlat0) as [H1 H1'].
  destruct (foldl_maxStep_upper (gps.Latitude <$> rest) _ Hlat0) as [H2 H2'].
  destruct (foldl_minStep_lower (gps.Longitude <$> rest) _ Hlng0) as [H3 H3'].
  destruct (foldl_maxStep_upper (gps.Longitude <$> rest) _ Hlng0) as [H4 H4'].
  apply elem_of_cons in Hq as [-> | Hq]; [done |].
  repeat split; [apply H1' | apply H2' | apply H3' | apply H4'];
    by apply list_elem_of_fmap_2.
Qed.

(** X8. A NaN coordinate becomes a bound only through the first point:
    when the latitude of the first point is NaN, both latitude bounds are
    that NaN whatever follows; when it is not, neither latitude bound is
    NaN, a NaN further on being passed over. The same holds of the
    longitudes. *)
Theorem Bounds_NaN_only_from_first_point (p0 : gps.Point) (rest : gps.Points) :
  (PrimFloat.is_nan (gps.Latitude p0) = true →
     (gps.Bounds (p0 :: rest)).1.1.1 = gps.Latitude p0
     ∧ (gps.Bounds (p0 :: rest)).1.1.2 = gps.Latitude p0)
  ∧ (PrimFloat.is_nan (gps.Latitude p0) = false →
     PrimFloat.is_nan (gps.Bounds (p0 :: rest)).1.1.1 = false
     ∧ PrimFloat.is_nan (gps.Bounds (p0 :: rest)).1.1.2 = false)
  ∧ (PrimFloat.is_nan (gps.Longitude p0) = true →
     (gps.Bounds (p0 :: rest)).1.2 = gps.Longitude p0
     ∧ (gps.Bounds (p0 :: rest)).2 = gps.Longitude p0)
  ∧ (PrimFloat.is_nan (gps.Longitude p0) = false →
     PrimFloat.is_nan (gps.Bounds (p0 :: rest)).1.2 = false
     ∧ PrimFloat.is_nan (gps.Bounds (p0 :: rest)).2 = false).
Proof.
  unfold gps.Bounds. rewrite Bounds_loop_folds. simpl.
  split; [| split; [| split]]; intros Hnan; split;
    (apply foldl_fixed; intros x; by (apply minStep_nan || apply maxStep_nan))
    || (apply foldl_not_nan; [| done]; intros a x;
        by (apply minStep_not_nan || apply maxStep_not_nan)).
Qed.

(** ** The ingestion orchestrator: rows, points and warnings *)

Section OrchestratorMore.

Context {golib : GoLib}.
Variable r : csv.Reader.

Lemma findColumnIndices_no_panic (rows : list (list string)) :
  csv.findColumnIndices r rows ≠ Panic.
Proof. unfold csv.findColumnIndices. by destruct (_ || _). Qed.

Lemma valid_or_failure (indices : csv.columnIndices) (record : list string) :
  wellFormedIndices indices →
  (∃ point, validPoint r indices record = Some point
            ∧ rowFailure r indices record = None)
  ∨ (∃ e, rowFailure r indices record = Some e
          ∧ validPoint r indices record = None).
Proof.
  intros Hwf. unfold validPoint, rowFailure.
  pose proof (parseRecord_no_panic r record indices 0 Hwf) as Hnp.
  destruct (csv.parseRecord r record indices 0) as [point | e |]; [| | done].
  - left. by exists point.
  - right. by exists e.
Qed.

Lemma rows_accounted (indices : csv.columnIndices) (n : Z)
    (rows : list (list string)) :
  wellFormedIndices indices →
  (length (validPoints r indices rows) + length (rowWarnings r indices n rows)
   = length rows)%nat.
Proof.
  intros Hwf. revert n. unfold validPoints.
  induction rows as [|record rest IH]; intros n; [done |].
  change (omap (validPoint r indices) (record :: rest))
    with (match validPoint r indices record with
          | Some point => point :: omap (validPoint r indices) rest
          | None => omap (validPoint r indices) rest
          end).
  simpl.
  destruct (valid_or_failure indices record Hwf)
    as [(point & -> & ->) | (e & -> & ->)]; simpl; rewrite <- (IH (n + 1)); lia.
Qed.

Lemma rowWarnings_elem (indices : csv.columnIndices) (rows : list (list string))
    (n : Z) (w : csv.warning) :
  w ∈ rowWarnings r indices n rows
  ↔ ∃ (i : nat) record e,
      rows !! i = Some record
      ∧ rowFailure r indices record = Some e
      ∧ w = csv.mkWarning (n + Z.of_nat i) e.
Proof.
  revert n. induction rows as [|record rest IH]; intros n; simpl.
  - rewrite elem_of_nil. split; [done |]. by intros (i & record & e & Hi & _).
  - assert (Hrest : w ∈ rowWarnings r indices (n + 1) rest
                    ↔ ∃ (i : nat) record' e,
                        rest !! i = Some record'
                        ∧ rowFailure r indices record' = Some e
                        ∧ w = csv.mkWarning (n + Z.of_nat (S i)) e).
    { rewrite IH. split; intros (i & record' & e & Hi & He & ->);
        exists i, record', e; (split; [done |]); (split; [done |]);
        f_equal; lia. }
    destruct (rowFailure r indices record) as [e0 |] eqn:Hfail.
    + rewrite elem_of_cons, Hrest. split.
      * intros [-> | (i & record' & e & Hi & He & ->)].
        -- exists 0%nat, record, e0. repeat split; [done |]. f_equal. lia.
        -- by exists (S i), record', e.
      * intros ([|i] & record' & e & Hi & He & ->); simpl in Hi.
        -- injection Hi as <-. left. rewrite Hfail in He.
           injection He as <-. f_equal. lia.
        -- right. by exists i, record', e.
    + rewrite Hrest. split.
      * intros (i & record' & e & Hi & He & ->). by exists (S i), record', e.
      * intros ([|i] & record' & e & Hi & He & ->); simpl in Hi.
        -- injection Hi as <-. congruence.
        -- by exists i, record', e.
Qed.

Lemma rowWarnings_increasing (indices : csv.columnIndices)
    (rows : list (list string)) (n : Z) :
  StronglySorted (λ a b, csv.rowNum a < csv.rowNum b)
    (rowWarnings r indices n rows).
Proof.
  revert n. induction rows as [|record rest IH]; intros n; simpl; [constructor |].
  destruct (rowFailure r indices record) as [e0 |]; [| apply IH].
  constructor; [apply IH |].
  apply Forall_forall. intros w Hw.
  apply rowWarnings_elem in Hw as (i & record' & e & _ & _ & ->). simpl. lia.
Qed.

Lemma parseRecords_no_panic (records : list (list string)) :
  csv.parseRecords r records ≠ Panic.
Proof.
  rewrite parseRecords_shape.
  destruct (_ <? 1); [done |]. destruct (_ && _); [done |].
  pose proof (findColumnIndices_no_panic (csv.skipRows r records)) as Hnp.
  by destruct (csv.findColumnIndices r (csv.skipRows r records)).
Qed.

(** X9. No slice is indexed out of range: [parseRecords] never panics,
    whatever the configuration and the table, because the indices that
    [findColumnIndices] returns are positions (the optional ones
    positions or -1), with which [parseRecord] panics on no row. *)
Theorem parseRecords_never_panics (records : list (list string)) :
  csv.parseRecords r records ≠ Panic
  ∧ ∀ rows indices record rowNum,
      csv.findColumnIndices r rows = Ok indices →
      wellFormedIndices indices
      ∧ csv.parseRecord r record indices rowNum ≠ Panic.
Proof.
  split; [apply parseRecords_no_panic |].
  intros rows indices record rowNum Hfind.
  pose proof (findColumnIndices_wellFormed r rows indices Hfind) as Hwf.
  split; [exact Hwf |]. by apply parseRecord_no_panic.
Qed.

(** X10. When [parseRecords] succeeds, every data row is accounted for:
    the warnings are those of exactly the rows that fail record
    validation, each under the number the row has in the table left
    after skipping, counted from one, in increasing order; and with
    duplicate removal off, points and warnings together are as many as
    there are data rows. *)
Theorem parseRecords_accounts_for_every_row (records : list (list string))
    (points : gps.Points) (log : list csv.warning) :
  let rows := csv.skipRows r records in
  let startRow := if config.HasHeader (csv.config r) then 1 else 0 in
  let dataRows := csv.sliceFrom rows startRow in
  csv.parseRecords r records = Ok (points, log) →
  ∃ indices,
    csv.findColumnIndices r rows = Ok indices
    ∧ (∀ w, w ∈ log
            ↔ ∃ (i : nat) record e,
                dataRows !! i = Some record
                ∧ rowFailure r indices record = Some e
                ∧ w = csv.mkWarning (startRow + 1 + Z.of_nat i) e)
    ∧ StronglySorted (λ a b, csv.rowNum a < csv.rowNum b) log
    ∧ (config.RemoveDuplicates (csv.processing r) = false →
       (length points + length log = length dataRows)%nat).
Proof.
  intros rows startRow dataRows. rewrite parseRecords_shape.
  fold rows startRow dataRows.
  destruct (_ <? 1); [done |]. destruct (_ && _); [done |].
  destruct (csv.findColumnIndices r rows) as [indices | |] eqn:Hfind;
    [| done | done].
  simpl. intros [= <- <-]. exists indices. split; [done |].
  split; [intros w; apply rowWarnings_elem |].
  split; [apply rowWarnings_increasing |].
  intros ->. apply rows_accounted. by eapply findColumnIndices_wellFormed.
Qed.

(** X11. The points returned by [parseRecords] stand in row order: they
    form a subsequence of the points of the valid rows; with duplicate
    removal on, their coordinate keys are pairwise distinct and every
    key of a valid row is still present. *)
Theorem parseRecords_output_ordered_and_distinct (records : list (list string))
    (points : gps.Points) (log : list csv.warning) :
  let rows := csv.skipRows r records in
  let startRow := if config.HasHeader (csv.config r) then 1 else 0 in
  let dataRows := csv.sliceFrom rows startRow in
  csv.parseRecords r records = Ok (points, log) →
  ∃ indices,
    csv.findColumnIndices r rows = Ok indices
    ∧ points `sublist_of` validPoints r indices dataRows
    ∧ (∀ k, k ∈ gps.coordKey fmt_Sprintf_6f <$> points
            ↔ k ∈ gps.coordKey fmt_Sprintf_6f <$> validPoints r indices dataRows)
    ∧ (config.RemoveDuplicates (csv.processing r) = true →
       NoDup (gps.coordKey fmt_Sprintf_6f <$> points)).
Proof.
  intros rows startRow dataRows. rewrite parseRecords_shape.
  fold rows startRow dataRows.
  destruct (_ <? 1); [done |]. destruct (_ && _); [done |].
  destruct (csv.findColumnIndices r rows) as [indices | |] eqn:Hfind;
    [| done | done].
  simpl. intros [= <- <-]. exists indices. split; [done |].
  destruct (config.RemoveDuplicates (csv.processing r)).
  - split; [| split].
    + unfold gps.RemoveDuplicates.
      rewrite (RemoveDuplicates_loop_firstOccurrences fmt_Sprintf_6f _ ∅ [] []
                 (seenKeysOf_empty fmt_Sprintf_6f)).
      apply firstOccurrences_sublist.
    + intros k. unfold gps.RemoveDuplicates.
      rewrite (RemoveDuplicates_loop_keys fmt_Sprintf_6f _ ∅ []
                 (seenKeysOf_empty fmt_Sprintf_6f) k).
      simpl. rewrite elem_of_nil. tauto.
    + intros _. apply RemoveDuplicates_loop_NoDup;
        [apply seenKeysOf_empty | apply NoDup_nil_2].
  - split; [done |]. split; [done | done].
Qed.

(** X12. Without a header row, ingestion of a table that is not empty
    never fails: the columns are taken by position (timestamp 0,
    latitude 1, longitude 2, title 3 and description 4 when the first
    row left after skipping has that many cells), and rows that do not
    parse only give warnings. *)
Theorem parseRecords_without_header_succeeds (records : list (list string)) :
  config.HasHeader (csv.config r) = false →
  records ≠ [] →
  csv.findColumnIndices r (csv.skipRows r records)
  = Ok (csv.positionalIndices (csv.skipRows r records))
  ∧ ∃ points log, csv.parseRecords r records = Ok (points, log).
Proof.
  intros Hheader Hne.
  assert (Hrows : 1 ≤ len (csv.skipRows r records)).
  { assert (Hlen : 1 ≤ len records).
    { unfold len. destruct records; [done | simpl; lia]. }
    unfold csv.skipRows, csv.sliceFrom.
    destruct (Z.ltb_spec 0 (config.SkipRows (csv.config r))); simpl; [| done].
    destruct (Z.ltb_spec (config.SkipRows (csv.config r)) (len records))
      as [Hlt | Hge]; [| done].
    unfold len in *. rewrite length_drop. lia. }
  assert (Hfind : csv.findColumnIndices r (csv.skipRows r records)
                  = Ok (csv.positionalIndices (csv.skipRows r records))).
  { unfold csv.findColumnIndices. by rewrite Hheader. }
  split; [exact Hfind |].
  rewrite parseRecords_shape, Hfind, Hheader.
  destruct (Z.ltb_spec (len (csv.skipRows r records)) 1); [lia |].
  simpl. eauto.
Qed.

End OrchestratorMore.

(** ** The record validator and the resolved indices *)

Section RecordsMore.

Context {golib : GoLib}.
Variable r : csv.Reader.

(** The text of an optional cell as [parseRecord] reads it. *)
Lemma optional_cell (record : list string) (i : Z) (text : string) :
  (if negb (i =? -1) && (i <? len record)
   then cell ← index record i; Ok (strings_TrimSpace cell)
   else Ok "") = Ok text →
  (i = -1 ∨ len record ≤ i → text = "")
  ∧ (∀ cell, i ≠ -1 → index record i = Ok cell → text = strings_TrimSpace cell).
Proof.
  destruct (Z.eqb_spec i (-1)) as [-> | Hne]; simpl.
  - intros [= <-]. split; [done |]. by intros cell Hne.
  - destruct (Z.ltb_spec i (len record)) as [Hlt | Hge].
    + unfold mbind, outcome_bind.
      destruct (index record i) as [cell | |] eqn:Hcell; [| done | done].
      intros [= <-]. split; [lia |]. by intros cell' _ [= <-].
    + intros [= <-]. split; [done |]. intros cell _ Hcell.
      unfold index in Hcell. destruct (i <? 0); [done |].
      destruct (record !! Z.to_nat i) eqn:Hlook; [| done].
      apply lookup_lt_Some in Hlook. unfold len in Hge. lia.
Qed.

Lemma parseRecord_Ok_inv (record : list string) (indices : csv.columnIndices)
    (rowNum : Z) (point : gps.Point) :
  csv.parseRecord r record indices rowNum = Ok point →
  ∃ tsCell latCell lngCell,
    index record (csv.timestamp indices) = Ok tsCell
    ∧ index record (csv.latitude indices) = Ok latCell
    ∧ index record (csv.longitude indices) = Ok lngCell
    ∧ csv.parseTimestamp r tsCell = Ok (gps.Timestamp point)
    ∧ strconv_ParseFloat (strings_TrimSpace latCell) = Some (gps.Latitude point)
    ∧ strconv_ParseFloat (strings_TrimSpace lngCell) = Some (gps.Longitude point)
    ∧ (if negb (csv.title indices =? -1) && (csv.title indices <? len record)
       then cell ← index record (csv.title indices); Ok (strings_TrimSpace cell)
       else Ok "") = Ok (gps.Title point)
    ∧ (if negb (csv.description indices =? -1)
          && (csv.description indices <? len record)
       then cell ← index record (csv.description indices);
            Ok (strings_TrimSpace cell)
       else Ok "") = Ok (gps.Description point).
Proof.
  unfold csv.parseRecord. destruct (_ || _); [done |].
  unfold csv.parseFloatOr, csv.wrapErr.
  destruct (index record (csv.timestamp indices)) as [tsCell | |] eqn:Hts;
    simpl; try discriminate.
  destruct (csv.parseTimestamp r tsCell) as [ts | e |] eqn:Htime;
    simpl; try discriminate.
  destruct (index record (csv.latitude indices)) as [latCell | |] eqn:Hlatc;
    simpl; try discriminate.
  destruct (strconv_ParseFloat (strings_TrimSpace latCell)) as [lat |] eqn:Hlat;
    simpl; try discriminate.
  destruct (index record (csv.longitude indices)) as [lngCell | |] eqn:Hlngc;
    simpl; try discriminate.
  destruct (strconv_ParseFloat (strings_TrimSpace lngCell)) as [lng |] eqn:Hlng;
    simpl; try discriminate.
  destruct (if negb (csv.title indices =? -1) && _ then _ else _)
    as [pointTitle | |] eqn:Htitle; simpl; try discriminate.
  destruct (if negb (csv.description indices =? -1) && _ then _ else _)
    as [pointDescription | |] eqn:Hdesc; simpl; try discriminate.
  intros [= <-]. simpl. exists tsCell, latCell, lngCell.
  repeat split; done.
Qed.

Lemma parseRecord_guard (record : list string) (indices : csv.columnIndices)
    (rowNum : Z) :
  csv.parseRecord r record indices rowNum = Err ErrInsufficientColumns →
  len record ≤ csv.timestamp indices ∨ len record ≤ csv.latitude indices
  ∨ len record ≤ csv.longitude indices.
Proof.
  unfold csv.parseRecord.
  destruct (Z.leb_spec (len record) (csv.timestamp indices)); [by left |].
  destruct (Z.leb_spec (len record) (csv.latitude indices)); [by right; left |].
  destruct (Z.leb_spec (len record) (csv.longitude indices)); [by right; right |].
  simpl. intros Hfail. exfalso. revert Hfail.
  unfold mbind, outcome_bind, csv.parseFloatOr, csv.wrapErr.
  destruct (index_cases record (csv.timestamp indices)) as [[tsCell ->] | ->];
    simpl; try discriminate.
  destruct (csv.parseTimestamp r tsCell) as [ts | e |];
    simpl; try discriminate.
  destruct (index_cases record (csv.latitude indices)) as [[latCell ->] | ->];
    simpl; try discriminate.
  destruct (strconv_ParseFloat _) as [lat |]; simpl; try discriminate.
  destruct (index_cases record (csv.longitude indices)) as [[lngCell ->] | ->];
    simpl; try discriminate.
  destruct (strconv_ParseFloat _) as [lng |]; simpl; try discriminate.
  destruct (negb _ && _);
    [destruct (index_cases record (csv.title indices)) as [[c1 ->] | ->] |];
    simpl; try discriminate;
    (destruct (negb _ && _);
     [destruct (index_cases record (csv.description indices)) as [[c2 ->] | ->] |]);
    simpl; discriminate.
Qed.

Lemma headerLoop_within_header (f : field) (header : list string) :
  fieldIndex f (csv.headerLoop r 0 header csv.unresolvedIndices) < len header.
Proof.
  rewrite fieldIndex_headerLoop.
  assert (Hinit : fieldIndex f csv.unresolvedIndices = -1) by by destruct f.
  rewrite Hinit. unfold len.
  destruct (lastMatchFrom_cases (cellMatches r f) header 0 (-1))
    as [[Heq _] | (k & cell & Hk & _ & _ & Heq)]; rewrite Heq; [lia |].
  apply lookup_lt_Some in Hk. lia.
Qed.

(** X13. The point of a row that passes record validation carries what
    the cells hold and nothing else: the timestamp as the normalizer
    reads the timestamp cell, the coordinates exactly as
    [strconv.ParseFloat] reads the trimmed cells, without any check of
    their range, and as title and description the trimmed cells at the
    resolved positions, or the empty text when the position is absent
    or beyond the row. *)
Theorem parseRecord_passes_cells_through (record : list string)
    (indices : csv.columnIndices) (rowNum : Z) (point : gps.Point) :
  csv.parseRecord r record indices rowNum = Ok point →
  ∃ tsCell latCell lngCell,
    index record (csv.timestamp indices) = Ok tsCell
    ∧ index record (csv.latitude indices) = Ok latCell
    ∧ index record (csv.longitude indices) = Ok lngCell
    ∧ csv.parseTimestamp r tsCell = Ok (gps.Timestamp point)
    ∧ strconv_ParseFloat (strings_TrimSpace latCell) = Some (gps.Latitude point)
    ∧ strconv_ParseFloat (strings_TrimSpace lngCell) = Some (gps.Longitude point)
    ∧ (csv.title indices = -1 ∨ len record ≤ csv.title indices →
       gps.Title point = "")
    ∧ (∀ cell, csv.title indices ≠ -1 →
         index record (csv.title indices) = Ok cell →
         gps.Title point = strings_TrimSpace cell)
    ∧ (csv.description indices = -1 ∨ len record ≤ csv.description indices →
       gps.Description point = "")
    ∧ (∀ cell, csv.description indices ≠ -1 →
         index record (csv.description indices) = Ok cell →
         gps.Description point = strings_TrimSpace cell).
Proof.
  intros Hok.
  destruct (parseRecord_Ok_inv record indices rowNum point Hok)
    as (tsCell & latCell & lngCell & Hts & Hlat & Hlng & Htime & Hlatv & Hlngv
        & Htitle & Hdesc).
  exists tsCell, latCell, lngCell.
  destruct (optional_cell record _ _ Htitle) as [Ht1 Ht2].
  destruct (optional_cell record _ _ Hdesc) as [Hd1 Hd2].
  repeat split; done.
Qed.

(** X14. The indices resolved from a header row lie within that row, so
    that a data row with at least as many cells as the header is never
    refused for insufficient columns. *)
Theorem header_indices_within_header (header : list string)
    (rows : list (list string)) (indices : csv.columnIndices) :
  config.HasHeader (csv.config r) = true →
  csv.findColumnIndices r (header :: rows) = Ok indices →
  (∀ f, fieldIndex f indices < len header)
  ∧ ∀ record rowNum,
      len header ≤ len record →
      csv.parseRecord r record indices rowNum ≠ Err ErrInsufficientColumns.
Proof.
  intros Hheader Hfind.
  unfold csv.findColumnIndices in Hfind. rewrite Hheader in Hfind.
  destruct (_ || _) in Hfind; [done |]. injection Hfind as <-.
  assert (Hin : ∀ f, fieldIndex f (csv.headerLoop r 0 header csv.unresolvedIndices)
                     < len header) by (intros f; apply headerLoop_within_header).
  split; [exact Hin |].
  intros record rowNum Hlen Hfail.
  apply parseRecord_guard in Hfail.
  pose proof (Hin FTimestamp). pose proof (Hin FLatitude).
  pose proof (Hin FLongitude). simpl in *. lia.
Qed.

(** X15. Title and description have no default column names: in a table
    with a header row, when no title column is configured the title is
    not resolved, whatever the header cells say, and every point gets
    the empty title; likewise for the description. *)
Theorem optional_fields_need_configured_name (header : list string)
    (rows : list (list string)) (indices : csv.columnIndices) :
  config.HasHeader (csv.config r) = true →
  csv.findColumnIndices r (header :: rows) = Ok indices →
  (config.TitleColumn (csv.config r) = "" →
     csv.title indices = -1
     ∧ ∀ record rowNum point,
         csv.parseRecord r record indices rowNum = Ok point →
         gps.Title point = "")
  ∧ (config.DescriptionColumn (csv.config r) = "" →
     csv.description indices = -1
     ∧ ∀ record rowNum point,
         csv.parseRecord r record indices rowNum = Ok point →
         gps.Description point = "").
Proof.
  intros Hheader Hfind.
  unfold csv.findColumnIndices in Hfind. rewrite Hheader in Hfind.
  destruct (_ || _) in Hfind; [done |]. injection Hfind as <-.
  split; intros Hname.
  - assert (Hidx : fieldIndex FTitle
                     (csv.headerLoop r 0 header csv.unresolvedIndices) = -1).
    { destruct (decide (fieldIndex FTitle
                          (csv.headerLoop r 0 header csv.unresolvedIndices) = -1))
        as [| Hne]; [done |].
      apply headerLoop_resolved in Hne as (cell & _ & Hcell).
      unfold cellMatches, configuredName in Hcell. by rewrite Hname in Hcell. }
    simpl in Hidx. split; [exact Hidx |].
    intros record rowNum point Hok.
    destruct (parseRecord_Ok_inv record _ rowNum point Hok)
      as (_ & _ & _ & _ & _ & _ & _ & _ & _ & Htitle & _).
    apply optional_cell in Htitle as [Hempty _]. apply Hempty. by left.
  - assert (Hidx : fieldIndex FDescription
                     (csv.headerLoop r 0 header csv.unresolvedIndices) = -1).
    { destruct (decide (fieldIndex FDescription
                          (csv.headerLoop r 0 header csv.unresolvedIndices) = -1))
        as [| Hne]; [done |].
      apply headerLoop_resolved in Hne as (cell & _ & Hcell).
      unfold cellMatches, configuredName in Hcell. by rewrite Hname in Hcell. }
    simpl in Hidx. split; [exact Hidx |].
    intros record rowNum point Hok.
    destruct (parseRecord_Ok_inv record _ rowNum point Hok)
      as (_ & _ & _ & _ & _ & _ & _ & _ & _ & _ & Hdesc).
    apply optional_cell in Hdesc as [Hempty _]. apply Hempty. by left.
Qed.

End RecordsMore.

(** ** Prefixes and suffixes *)

Lemma length_append (s1 s2 : string) :
  String.length (s1 +:+ s2) = (String.length s1 + String.length s2)%nat.
Proof. induction s1 as [|c s1 IH]; simpl; [done |]. by rewrite IH. Qed.

Lemma takeBytes_append (s1 s2 : string) :
  gostrings.takeBytes (String.length s1) (s1 +:+ s2) = s1.
Proof.
  induction s1 as [|c s1 IH]; simpl; [by destruct s2 |]. by rewrite IH.
Qed.

Lemma dropBytes_append (s1 s2 : string) :
  gostrings.dropBytes (String.length s1) (s1 +:+ s2) = s2.
Proof. induction s1 as [|c s1 IH]; simpl; [by destruct s2 | done]. Qed.

Lemma takeBytes_dropBytes (n : nat) (s : string) :
  gostrings.takeBytes n s +:+ gostrings.dropBytes n s = s.
Proof.
  revert s. induction n as [|n IH]; intros s; [by destruct s |].
  destruct s as [|c s]; [done |].
  change (String c (gostrings.takeBytes n s +:+ gostrings.dropBytes n s)
          = String c s).
  by rewrite IH.
Qed.

Lemma length_takeBytes (n : nat) (s : string) :
  (n ≤ String.length s)%nat → String.length (gostrings.takeBytes n s) = n.
Proof.
  revert s. induction n as [|n IH]; intros s Hn; [by destruct s |].
  destruct s as [|c s]; simpl in *; [lia |]. rewrite IH; lia.
Qed.

Lemma HasPrefix_spec (s prefix : string) :
  gostrings.HasPrefix s prefix = true ↔ ∃ rest, s = prefix +:+ rest.
Proof.
  unfold gostrings.HasPrefix. split.
  - intros H. apply andb_true_iff in H as [_ H]. apply String.eqb_eq in H.
    exists (gostrings.dropBytes (String.length prefix) s).
    rewrite <- H at 1. by rewrite takeBytes_dropBytes.
  - intros [rest ->]. apply andb_true_iff. split.
    + apply Nat.leb_le. rewrite length_append. lia.
    + apply String.eqb_eq, takeBytes_append.
Qed.

Lemma HasSuffix_spec (s suffix : string) :
  gostrings.HasSuffix s suffix = true ↔ ∃ start, s = start +:+ suffix.
Proof.
  unfold gostrings.HasSuffix. split.
  - intros H. apply andb_true_iff in H as [_ H]. apply String.eqb_eq in H.
    exists (gostrings.takeBytes (String.length s - String.length suffix) s).
    pose proof (takeBytes_dropBytes (String.length s - String.length suffix) s)
      as Hsplit.
    rewrite H in Hsplit. by symmetry.
  - intros [start ->]. apply andb_true_iff. split.
    + apply Nat.leb_le. rewrite length_append. lia.
    + apply String.eqb_eq. rewrite length_append.
      replace (String.length start + String.length suffix
               - String.length suffix)%nat with (String.length start) by lia.
      apply dropBytes_append.
Qed.

Lemma HasSuffix_cons (a : ascii) (s suffix : string) :
  (String.length suffix ≤ String.length s)%nat →
  gostrings.HasSuffix (String a s) suffix = gostrings.HasSuffix s suffix.
Proof.
  intros Hlen. unfold gostrings.HasSuffix.
  replace (String.length (String a s) - String.length suffix)%nat
    with (S (String.length s - String.length suffix)) by (simpl; lia).
  simpl. f_equal.
  destruct (Nat.leb_spec (String.length suffix) (String.length s));
    destruct (Nat.leb_spec (String.length suffix) (S (String.length s)));
    (done || lia).
Qed.

Lemma TrimPrefix_append (prefix rest : string) :
  gostrings.TrimPrefix (prefix +:+ rest) prefix = rest.
Proof.
  unfold gostrings.TrimPrefix.
  rewrite (proj2 (HasPrefix_spec _ _)) by eauto. apply dropBytes_append.
Qed.

Lemma TrimSuffix_append (start suffix : string) :
  gostrings.TrimSuffix (start +:+ suffix) suffix = start.
Proof.
  unfold gostrings.TrimSuffix.
  rewrite (proj2 (HasSuffix_spec _ _)) by eauto. rewrite length_append.
  replace (String.length start + String.length suffix
           - String.length suffix)%nat with (String.length start) by lia.
  apply takeBytes_append.
Qed.

(** ** The configuration: API key and validation *)

Lemma withAPIKey_same (c : config.Config) :
  config.withAPIKey c (config.APIKey (config.GoogleMaps c)) = c.
Proof. by destruct c as [[] ? ? ? ? ?]. Qed.

(** X16. [ResolveAPIKey] reads the key as follows: an empty key is an
    error; a key of the form [${NAME}] is replaced by the value of the
    environment variable NAME, which is all the text between the first
    two and the last byte, and is an error when that value is empty; any
    other key, DEMO included, is left as it is. An error leaves the
    configuration unchanged. *)
Theorem ResolveAPIKey_cases (getenv : string → string) (c : config.Config) :
  let key := config.APIKey (config.GoogleMaps c) in
  (key = "" → config.ResolveAPIKey getenv c = (c, Some config.ErrAPIKeyRequired))
  ∧ (∀ name, key = "${" +:+ name +:+ "}" →
       config.ResolveAPIKey getenv c
       = if String.eqb (getenv name) ""
         then (c, Some (config.ErrEnvNotSet name))
         else (config.withAPIKey c (getenv name), None))
  ∧ (key ≠ "" → (∀ name, key ≠ "${" +:+ name +:+ "}") →
       config.ResolveAPIKey getenv c = (c, None))
  ∧ (∀ c' e, config.ResolveAPIKey getenv c = (c', Some e) → c' = c).
Proof.
  intros key. unfold config.ResolveAPIKey. fold key.
  split; [by intros -> | split; [| split]].
  - intros name Hkey. rewrite Hkey.
    change ("${" +:+ name +:+ "}") with (String "$" (String "{" (name +:+ "}"))).
    cbn [String.eqb Ascii.eqb Bool.eqb].
    rewrite (proj2 (HasPrefix_spec _ "${")) by (by exists (name +:+ "}")).
    rewrite (proj2 (HasSuffix_spec _ "}")) by (by exists ("${" +:+ name)).
    cbn [andb].
    change (String "$" (String "{" (name +:+ "}"))) with ("${" +:+ name +:+ "}").
    rewrite TrimPrefix_append, TrimSuffix_append.
    by destruct (String.eqb (getenv name) "").
  - intros Hne Hform. apply String.eqb_neq in Hne. rewrite Hne.
    destruct (String.eqb key "DEMO"); [done |].
    destruct (gostrings.HasPrefix key "${") eqn:Hpre; [| done].
    destruct (gostrings.HasSuffix key "}") eqn:Hsuf; [| done].
    exfalso. apply HasPrefix_spec in Hpre as [rest Hrest].
    assert (Hrest' : ∃ name, rest = name +:+ "}").
    { apply HasSuffix_spec. rewrite Hrest in Hsuf.
      change ("${" +:+ rest) with (String "$" (String "{" rest)) in Hsuf.
      destruct rest as [|a rest']; [done |].
      rewrite !HasSuffix_cons in Hsuf by (simpl; lia). done. }
    destruct Hrest' as [name ->]. by apply (Hform name).
  - intros c' e.
    repeat match goal with
           | |- context [if ?b then _ else _] => destruct b
           end; by intros [= <- _].
Qed.

Lemma ResolveAPIKey_success (getenv : string → string) (c c' : config.Config) :
  config.ResolveAPIKey getenv c = (c', None) →
  config.APIKey (config.GoogleMaps c') ≠ ""
  ∧ c' = config.withAPIKey c (config.APIKey (config.GoogleMaps c')).
Proof.
  unfold config.ResolveAPIKey.
  destruct (String.eqb_spec (config.APIKey (config.GoogleMaps c)) "") as [| Hne];
    [done |].
  destruct (String.eqb _ "DEMO").
  { intros [= <-]. by rewrite withAPIKey_same. }
  destruct (_ && _).
  - destruct (String.eqb_spec (getenv (gostrings.TrimSuffix
        (gostrings.TrimPrefix (config.APIKey (config.GoogleMaps c)) "${") "}")) "")
      as [| Henv]; [done |].
    simpl. by intros [= <-].
  - intros [= <-]. by rewrite withAPIKey_same.
Qed.

(** X17. After a successful [ResolveAPIKey] the key is not empty and
    nothing but the key has changed, so that [Validate] can fail only on
    the file names, the input file being checked before the output
    file. *)
Theorem Validate_after_ResolveAPIKey (getenv : string → string)
    (c c' : config.Config) :
  config.ResolveAPIKey getenv c = (c', None) →
  config.APIKey (config.GoogleMaps c') ≠ ""
  ∧ config.Input c' = config.Input c
  ∧ config.Output c' = config.Output c
  ∧ config.Processing c' = config.Processing c
  ∧ config.Validate c'
    = if String.eqb (config.CSVFile (config.Input c)) ""
      then Some config.ErrCSVFileRequired
      else if String.eqb (config.HTMLFile (config.Output c)) ""
      then Some config.ErrHTMLFileRequired
      else None.
Proof.
  intros Hok.
  assert (Hform : ∃ key, key ≠ "" ∧ c' = config.withAPIKey c key).
  { destruct (ResolveAPIKey_success getenv c c' Hok) as [Hkey Heq]. eauto. }
  destruct Hform as (key & Hkey & ->). simpl.
  repeat split; [done |].
  unfold config.Validate. simpl. by rewrite (proj2 (String.eqb_neq _ _) Hkey).
Qed.

(** ** The command *)

Lemma eqb_empty_false (s : string) : s ≠ "" → String.eqb s "" = false.
Proof. apply String.eqb_neq. Qed.

(** X18. [overrideConfigWithFlags] gives every flag that is not empty
    precedence over the configuration file and keeps the file's value
    otherwise; the API key falls back on the environment variable
    GOOGLE_MAPS_API_KEY only when no flag is given and the file's key is
    empty or the placeholder. The CSV format, the processing options and
    the logging options are never touched, and applying the override
    twice changes nothing more. *)
Theorem overrideConfigWithFlags_precedence (getenv : string → string)
    (cfg : config.Config) (flags : app.Flags) :
  let cfg' := app.overrideConfigWithFlags getenv cfg flags in
  config.CSVFile (config.Input cfg')
  = (if String.eqb (app.CSVFile flags) ""
     then config.CSVFile (config.Input cfg) else app.CSVFile flags)
  ∧ config.HTMLFile (config.Output cfg')
    = (if String.eqb (app.Output flags) ""
       then config.HTMLFile (config.Output cfg) else app.Output flags)
  ∧ config.MapTitle cfg'
    = (if String.eqb (app.Title flags) ""
       then config.MapTitle cfg else app.Title flags)
  ∧ config.APIKey (config.GoogleMaps cfg')
    = (if negb (String.eqb (app.APIKey flags) "") then app.APIKey flags
       else if (String.eqb (config.APIKey (config.GoogleMaps cfg)) ""
                || String.eqb (config.APIKey (config.GoogleMaps cfg))
                     "${GOOGLE_MAPS_API_KEY}")
               && negb (String.eqb (getenv "GOOGLE_MAPS_API_KEY") "")
       then getenv "GOOGLE_MAPS_API_KEY"
       else config.APIKey (config.GoogleMaps cfg))
  ∧ config.CSVFormat (config.Input cfg') = config.CSVFormat (config.Input cfg)
  ∧ config.Processing cfg' = config.Processing cfg
  ∧ config.Logging cfg' = config.Logging cfg
  ∧ app.overrideConfigWithFlags getenv cfg' flags = cfg'.
Proof.
  intros cfg'. subst cfg'. unfold app.overrideConfigWithFlags.
  destruct cfg as [[key version libraries] [csvFile format]
                   [htmlFile debug exportKML kmlFile] title processing logging].
  destruct flags as [configFile fCSV fKey fOut fTitle]. simpl.
  destruct (String.eqb_spec fCSV "") as [-> | HCSV];
    destruct (String.eqb_spec fOut "") as [-> | HOut];
    destruct (String.eqb_spec fTitle "") as [-> | HTitle];
    destruct (String.eqb_spec fKey "") as [-> | HKey]; simpl;
    rewrite ?eqb_empty_false by done; simpl;
    try (repeat split; done);
    destruct (String.eqb key "" || String.eqb key "${GOOGLE_MAPS_API_KEY}")
      eqn:Hplace; simpl; rewrite ?Hplace; simpl;
    try (repeat split; done);
    destruct (String.eqb_spec (getenv "GOOGLE_MAPS_API_KEY") "") as [Henv | Henv];
    simpl; rewrite ?Hplace; simpl; rewrite ?Henv; simpl;
    try (repeat split; done);
    destruct (String.eqb (getenv "GOOGLE_MAPS_API_KEY") ""
              || String.eqb (getenv "GOOGLE_MAPS_API_KEY") "${GOOGLE_MAPS_API_KEY}");
    simpl; rewrite ?eqb_empty_false by done; simpl; repeat split; done.
Qed.

Section Main.

Context {golib : GoLib}.
Variable load : string → option config.Config.
Variable getenv : string → string.
Variable readAll : string → option ascii → csv.fileContent.
Variable sort_Slice : (gps.Point → gps.Point → bool) → gps.Points → gps.Points.
Variable generate : config.Config → gps.Points → string → bool.

(** X19. [main] never panics, and when it reaches the generator it
    hands over a collection that is not empty, holds the points that
    [parseRecords] returned for the records of the input file, stands in
    chronological order whatever [sort.Slice] does within its contract,
    and goes with an API key, an input file and an output file that are
    not empty. *)
Theorem main_hands_over_sorted_points (flags : app.Flags) :
  sortContract sort_Slice →
  app.main load getenv readAll sort_Slice generate flags ≠ app.Panicked
  ∧ ∀ cfg points outputFile,
      app.main load getenv readAll sort_Slice generate flags
      = app.Generated cfg points outputFile →
      points ≠ []
      ∧ chronological points
      ∧ outputFile = config.HTMLFile (config.Output cfg)
      ∧ outputFile ≠ ""
      ∧ config.APIKey (config.GoogleMaps cfg) ≠ ""
      ∧ config.CSVFile (config.Input cfg) ≠ ""
      ∧ ∃ records parsed log comma,
          readAll (config.CSVFile (config.Input cfg)) comma
          = csv.Records records
          ∧ csv.parseRecords
              (csv.NewReader (config.CSVFormat (config.Input cfg))
                 (config.Processing cfg)) records
            = Ok (parsed, log)
          ∧ points ≡ₚ parsed.
Proof.
  intros Hsort. unfold app.main.
  destruct (load (app.ConfigFile flags)) as [cfg0 |]; [| by split].
  destruct (config.ResolveAPIKey getenv _) as [cfg [e |]] eqn:Hresolve; [by split |].
  destruct (ResolveAPIKey_success _ _ _ Hresolve) as [Hkey _].
  destruct (config.Validate cfg) as [e |] eqn:Hvalid; [by split |].
  assert (Hfiles : config.CSVFile (config.Input cfg) ≠ ""
                   ∧ config.HTMLFile (config.Output cfg) ≠ "").
  { unfold config.Validate in Hvalid.
    destruct (String.eqb _ "") in Hvalid; [done |].
    destruct (String.eqb_spec (config.CSVFile (config.Input cfg)) ""); [done |].
    destruct (String.eqb_spec (config.HTMLFile (config.Output cfg)) ""); done. }
  unfold csv.ReadFile.
  set (reader := csv.NewReader _ _).
  set (comma := match config.Delimiter (csv.config reader) with
                | EmptyString => None
                | String c _ => Some c
                end).
  destruct (readAll _ comma) as [| | records] eqn:Hread; [by split | by split |].
  pose proof (parseRecords_no_panic reader records) as Hnp.
  destruct (csv.parseRecords reader records) as [[parsed log] | e |] eqn:Hparse;
    [| by split | done].
  destruct (gps.IsEmpty parsed) eqn:Hempty; [by split |].
  destruct (Hsort gps.lessByTimestamp parsed lessByTimestamp_strictWeakOrder)
    as [Hperm Hasc].
  destruct (generate cfg _ _); [| by split].
  split; [done |]. intros cfg' points outputFile [= <- <- <-].
  destruct Hfiles as [Hcsv Hhtml].
  split.
  { intros Hnil. unfold gps.SortByTimestamp in Hnil. rewrite Hnil in Hperm.
    apply Permutation_nil_l in Hperm. subst parsed. done. }
  split.
  { intros i j a b Hij Hi Hj.
    exact (ascending_lookup gps.lessByTimestamp _ i j a b Hasc Hij Hi Hj). }
  repeat split; try done.
  by exists records, parsed, log, comma.
Qed.

End Main.

(** * The properties at work on concrete tables *)

#[local] Existing Instance example.lib.

(** ** A sort within the contract of [sort.Slice] *)

Lemma notLess_Total {A : Type} (less : A → A → bool) :
  strictWeakOrder less → Total (λ a b, less b a = false).
Proof.
  intros (Hirr & Htrans & _) x y.
  destruct (less y x) eqn:Hyx; [| by left].
  destruct (less x y) eqn:Hxy; [| by right].
  pose proof (Htrans x y x Hxy Hyx) as Hxx.
  by rewrite Hirr in Hxx.
Qed.

Lemma notLess_Transitive {A : Type} (less : A → A → bool) :
  strictWeakOrder less → Transitive (λ a b, less b a = false).
Proof. intros (_ & _ & Hneg) x y z Hxy Hyz. by apply (Hneg z y x). Qed.

Lemma mergeSort_sortContract : sortContract example.mergeSort.
Proof.
  intros less l Hless. unfold example.mergeSort, ascending. split.
  - apply merge_sort_Permutation.
  - apply StronglySorted_merge_sort;
      [by apply notLess_Transitive | by apply notLess_Total].
Qed.

(** ** Counterexamples to the claims as first stated *)

(** C1 as stated fails: a table without header whose only row has a
    single cell passes column resolution and has no valid row, and yet
    the batch does not fail; it returns the empty collection and one
    warning. *)
Lemma parseRecords_no_valid_row_is_not_fatal :
  csv.findColumnIndices example.withoutHeader [["x"]]
  = Ok (csv.mkColumnIndices 0 1 2 (-1) (-1))
  ∧ validRowCount example.withoutHeader (csv.mkColumnIndices 0 1 2 (-1) (-1))
      [["x"]] = 0%nat
  ∧ csv.parseRecords example.withoutHeader [["x"]]
    = Ok ([], [csv.mkWarning 1 ErrInsufficientColumns])
  ∧ isErr (csv.parseRecords example.withoutHeader [["x"]]) = false.
Proof. by vm_compute. Qed.

(** C2 as stated fails: [sort.Slice] is not stable. Of thirteen points,
    twelve at one instant followed by an earlier one, [SortByTimestamp]
    brings the earlier one to the front and leaves the twelve in another
    order than they came in: the point that came first stands after five
    that came behind it, and the point that came second stands last. The
    slice is longer than the twelve elements [pdqsort_func] sorts by
    insertion; the pivot is its middle element, which [partition_func]
    first exchanges with the element at the head. *)
Lemma SortByTimestamp_reorders_equal_timestamps :
  (∀ xorshift_Next,
     gps.SortByTimestamp (gosort.Slice xorshift_Next) example.thirteenStops
     = [example.stop12; example.stop6; example.stop2; example.stop3;
        example.stop4; example.stop5; example.stop0; example.stop7;
        example.stop8; example.stop9; example.stop10; example.stop11;
        example.stop1])
  ∧ sameInstant (gps.Timestamp example.stop0) (gps.Timestamp example.stop6) = true
  ∧ example.thirteenStops !! 0%nat = Some example.stop0
  ∧ example.thirteenStops !! 6%nat = Some example.stop6
  ∧ (∀ xorshift_Next,
       ¬ stablyRearranged example.thirteenStops
           (gps.SortByTimestamp (gosort.Slice xorshift_Next)
              example.thirteenStops)).
Proof.
  split; [intros xorshift_Next; by vm_compute |].
  split; [by vm_compute |]. split; [done |]. split; [done |].
  intros xorshift_Next Hstable.
  specialize (Hstable (gps.Timestamp example.stop0)).
  vm_compute in Hstable. discriminate Hstable.
Qed.

(** C3 as stated fails: with a skip count of two and a table of two
    rows, a header and one data row, skipping would remove every row,
    and yet ingestion succeeds with the point of the data row. *)
Lemma parseRecords_skip_count_beyond_table_is_ignored :
  config.SkipRows (csv.config example.skippingTwo) = 2
  ∧ len example.shortTable = 2
  ∧ csv.parseRecords example.skippingTwo example.shortTable
    = Ok ([gps.mkPoint (time.Unix 1730131445) example.lat1 example.lng1 "" ""], []).
Proof. by vm_compute. Qed.

(** C7 as stated fails: a row of two cells covers the smallest of the
    required indices 0, 1 and 2, and is yet refused for insufficient
    columns. *)
Lemma parseRecord_refuses_row_covering_smallest_index :
  min3 0 1 2 < len ["2025-10-28T10:00:00Z"; "37.7749"]
  ∧ csv.parseRecord example.withoutHeader ["2025-10-28T10:00:00Z"; "37.7749"]
      (csv.mkColumnIndices 0 1 2 3 4) 1
    = Err ErrInsufficientColumns.
Proof. by vm_compute. Qed.

(** ** The theorems at concrete inputs *)

(** C1 on [example.track]: the header resolves, the row with latitude
    [north] is reported and left out, the two other rows are returned. *)
Lemma parseRecords_recovers_row_failures_witness :
  1 ≤ len (csv.skipRows example.withHeader example.track)
  ∧ (config.HasHeader (csv.config example.withHeader) = true →
     2 ≤ len (csv.skipRows example.withHeader example.track))
  ∧ csv.findColumnIndices example.withHeader
      (csv.skipRows example.withHeader example.track)
    = Ok (csv.mkColumnIndices 0 1 2 (-1) (-1))
  ∧ ∃ points,
      csv.parseRecords example.withHeader example.track
      = Ok (points, [csv.mkWarning 3 (ErrInvalidLatitude "north")])
      ∧ length points = 2%nat.
Proof.
  assert (H1 : 1 ≤ len (csv.skipRows example.withHeader example.track))
    by by vm_compute.
  assert (H2 : config.HasHeader (csv.config example.withHeader) = true →
               2 ≤ len (csv.skipRows example.withHeader example.track))
    by by vm_compute.
  assert (H3 : csv.findColumnIndices example.withHeader
                 (csv.skipRows example.withHeader example.track)
               = Ok (csv.mkColumnIndices 0 1 2 (-1) (-1)))
    by by vm_compute.
  split; [exact H1 |]. split; [exact H2 |]. split; [exact H3 |].
  destruct (parseRecords_recovers_row_failures example.withHeader example.track
              _ H1 H2 H3) as (points & Heq & _ & _ & _ & Hoff).
  exists points. split; [exact Heq | exact (Hoff eq_refl)].
Defined.

(** C2 with merge sort standing for [sort.Slice]. *)
Lemma SortByTimestamp_chronological_witness :
  sortContract example.mergeSort
  ∧ gps.SortByTimestamp example.mergeSort [example.pointB; example.pointA]
    ≡ₚ [example.pointB; example.pointA]
  ∧ chronological
      (gps.SortByTimestamp example.mergeSort [example.pointB; example.pointA]).
Proof.
  split; [apply mergeSort_sortContract |].
  apply SortByTimestamp_chronological, mergeSort_sortContract.
Defined.

(** C4 on the token [1730131445]: no layout parses it, so that it is
    read as epoch seconds. *)
Lemma parseTimestamp_resolution_order_witness :
  (∀ layout, layout ∈ [] ++ csv.defaultFormats →
     time_Parse layout "1730131445" = None)
  ∧ strconv.ParseInt "1730131445" = Some 1730131445
  ∧ csv.parseTimestamp example.withHeader " 1730131445 "
    = Ok (time.Unix 1730131445).
Proof.
  assert (Hnone : ∀ layout, layout ∈ [] ++ csv.defaultFormats →
                    time_Parse layout "1730131445" = None).
  { intros layout Hin. simpl in Hin.
    repeat (apply elem_of_cons in Hin as [-> | Hin]; [by vm_compute |]).
    by apply elem_of_nil in Hin. }
  assert (Hint : strconv.ParseInt "1730131445" = Some 1730131445)
    by by vm_compute.
  split; [exact Hnone |]. split; [exact Hint |].
  pose proof (parseTimestamp_resolution_order example.withHeader " 1730131445 ")
    as (_ & _ & Hepoch & _).
  exact (proj1 (Hepoch 1730131445 Hnone Hint)).
Defined.


(** C6 on the header [timestamp,latitude]: no cell names the longitude,
    and resolution fails with [MissingRequiredColumn]. *)
Lemma findColumnIndices_header_resolution_witness :
  config.HasHeader (csv.config example.withHeader) = true
  ∧ FLongitude ∈ requiredFields
  ∧ (∀ cell, cell ∈ ["timestamp"; "latitude"] →
       cellMatches example.withHeader FLongitude cell = false)
  ∧ ∃ e, csv.findColumnIndices example.withHeader
           (["timestamp"; "latitude"] :: [["2025-10-28T10:00:00Z"; "37.7749"]])
         = Err e
         ∧ conditionOf e = MissingRequiredColumn.
Proof.
  assert (Hreq : FLongitude ∈ requiredFields).
  { unfold requiredFields. do 2 (apply elem_of_cons; right).
    apply elem_of_cons. by left. }
  assert (Hnone : ∀ cell, cell ∈ ["timestamp"; "latitude"] →
                    cellMatches example.withHeader FLongitude cell = false).
  { intros cell Hin.
    repeat (apply elem_of_cons in Hin as [-> | Hin]; [by vm_compute |]).
    by apply elem_of_nil in Hin. }
  split; [reflexivity |]. split; [exact Hreq |]. split; [exact Hnone |].
  pose proof (findColumnIndices_header_resolution example.withHeader
                ["timestamp"; "latitude"] [["2025-10-28T10:00:00Z"; "37.7749"]]
                eq_refl) as (_ & _ & _ & Hfail).
  exact (Hfail FLongitude Hreq Hnone).
Defined.

(** C9 on three points out of order. *)
Lemma TimeRange_earliest_latest_witness :
  [example.pointB; example.pointA; example.pointA'] ≠ []
  ∧ ∃ a b,
      a ∈ [example.pointB; example.pointA; example.pointA']
      ∧ b ∈ [example.pointB; example.pointA; example.pointA']
      ∧ gps.TimeRange [example.pointB; example.pointA; example.pointA']
        = (gps.Timestamp a, gps.Timestamp b)
      ∧ ∀ q, q ∈ [example.pointB; example.pointA; example.pointA'] →
          time.Before (gps.Timestamp q) (gps.Timestamp a) = false
          ∧ time.After (gps.Timestamp q) (gps.Timestamp b) = false.
Proof.
  assert (Hne : [example.pointB; example.pointA; example.pointA'] ≠ [])
    by discriminate.
  split; [exact Hne |].
  exact (proj2 (TimeRange_earliest_latest
                  [example.pointB; example.pointA; example.pointA']) Hne).
Defined.

(** C10 on a header in which [lat] and [Latitude] both name the
    latitude, and [Name] and [name] both the configured title: the later
    cell wins. *)
Lemma findColumnIndices_last_match_wins_witness :
  config.HasHeader (csv.config example.withTitle) = true
  ∧ csv.findColumnIndices example.withTitle
      (example.twoLatitudes :: [["1730131445"; "0"; "2"; "1"]])
    = Ok (csv.mkColumnIndices 0 3 2 5 (-1))
  ∧ example.twoLatitudes !! 3%nat = Some "Latitude"
  ∧ cellMatches example.withTitle FLatitude "Latitude" = true
  ∧ (∀ (j : nat) later, (3 < j)%nat → example.twoLatitudes !! j = Some later →
       cellMatches example.withTitle FLatitude later = false)
  ∧ fieldIndex FLatitude (csv.mkColumnIndices 0 3 2 5 (-1)) = Z.of_nat 3.
Proof.
  assert (Hfind : csv.findColumnIndices example.withTitle
                    (example.twoLatitudes :: [["1730131445"; "0"; "2"; "1"]])
                  = Ok (csv.mkColumnIndices 0 3 2 5 (-1))) by by vm_compute.
  assert (Hlater : ∀ (j : nat) later, (3 < j)%nat →
                     example.twoLatitudes !! j = Some later →
                     cellMatches example.withTitle FLatitude later = false).
  { intros j later Hj Hlook.
    do 4 (destruct j as [|j]; [lia |]).
    do 2 (destruct j as [|j]; [injection Hlook as <-; by vm_compute |]).
    done. }
  split; [reflexivity |]. split; [exact Hfind |]. split; [reflexivity |].
  split; [by vm_compute |]. split; [exact Hlater |].
  apply (findColumnIndices_last_match_wins example.withTitle example.twoLatitudes
           [["1730131445"; "0"; "2"; "1"]] _ FLatitude 3 "Latitude");
    [reflexivity | exact Hfind | reflexivity | by vm_compute | exact Hlater].
Defined.

(** ** The further properties at concrete inputs *)

Lemma track_parsed :
  csv.parseRecords example.withHeader example.track
  = Ok ([example.trackPoint1; example.trackPoint2],
        [csv.mkWarning 3 (ErrInvalidLatitude "north")]).
Proof. by vm_compute. Qed.

Lemma pointA_pointB_chronological : chronological [example.pointA; example.pointB].
Proof.
  intros i j a b Hij Hi Hj.
  destruct i as [|[|i]]; destruct j as [|[|j]]; simpl in *; try lia; try done.
  injection Hi as <-. injection Hj as <-. by vm_compute.
Qed.

Lemma pointA_pointB_noNaN : noNaN [example.pointA; example.pointB].
Proof.
  intros q Hq.
  repeat (apply elem_of_cons in Hq as [-> | Hq]; [by vm_compute |]).
  by apply elem_of_nil in Hq.
Qed.

(** X4 on two orders of the same three points. *)
Lemma TimeRange_ordered_and_order_independent_witness :
  [example.pointB; example.pointA; example.pointA']
  ≡ₚ [example.pointA; example.pointA'; example.pointB]
  ∧ sameInstant
      (gps.TimeRange [example.pointB; example.pointA; example.pointA']).1
      (gps.TimeRange [example.pointA; example.pointA'; example.pointB]).1 = true
  ∧ sameInstant
      (gps.TimeRange [example.pointB; example.pointA; example.pointA']).2
      (gps.TimeRange [example.pointA; example.pointA'; example.pointB]).2 = true.
Proof.
  assert (Hperm : [example.pointB; example.pointA; example.pointA']
                  ≡ₚ [example.pointA; example.pointA'; example.pointB]).
  { apply (Permutation_cons_append [example.pointA; example.pointA']). }
  split; [exact Hperm |].
  exact (proj2 (TimeRange_ordered_and_order_independent _ _) Hperm).
Defined.

(** X5 on two points in chronological order. *)
Lemma TimeRange_of_chronological_witness :
  chronological [example.pointA; example.pointB]
  ∧ gps.First [example.pointA; example.pointB] = Some example.pointA
  ∧ gps.Last [example.pointA; example.pointB] = Some example.pointB
  ∧ (gps.TimeRange [example.pointA; example.pointB]).1
    = gps.Timestamp example.pointA
  ∧ sameInstant (gps.TimeRange [example.pointA; example.pointB]).2
      (gps.Timestamp example.pointB) = true.
Proof.
  split; [exact pointA_pointB_chronological |].
  split; [reflexivity |]. split; [reflexivity |].
  exact (TimeRange_of_chronological [example.pointA; example.pointB]
           example.pointA example.pointB pointA_pointB_chronological
           eq_refl eq_refl).
Defined.

(** X6 on two points. *)
Lemma Bounds_are_coordinates_witness :
  [example.pointA; example.pointB] ≠ []
  ∧ (gps.Bounds [example.pointA; example.pointB]).1.1.1
    ∈ gps.Latitude <$> [example.pointA; example.pointB]
  ∧ (gps.Bounds [example.pointA; example.pointB]).1.1.2
    ∈ gps.Latitude <$> [example.pointA; example.pointB]
  ∧ (gps.Bounds [example.pointA; example.pointB]).1.2
    ∈ gps.Longitude <$> [example.pointA; example.pointB]
  ∧ (gps.Bounds [example.pointA; example.pointB]).2
    ∈ gps.Longitude <$> [example.pointA; example.pointB].
Proof.
  assert (Hne : [example.pointA; example.pointB] ≠ []) by discriminate.
  split; [exact Hne |].
  exact (proj2 (Bounds_are_coordinates [example.pointA; example.pointB]) Hne).
Defined.

(** X7 on two points, neither with a NaN. *)
Lemma Bounds_enclose_witness :
  noNaN [example.pointA; example.pointB]
  ∧ example.pointB ∈ [example.pointA; example.pointB]
  ∧ PrimFloat.ltb (gps.Latitude example.pointB)
      (gps.Bounds [example.pointA; example.pointB]).1.1.1 = false
  ∧ PrimFloat.ltb (gps.Bounds [example.pointA; example.pointB]).1.1.2
      (gps.Latitude example.pointB) = false
  ∧ PrimFloat.ltb (gps.Longitude example.pointB)
      (gps.Bounds [example.pointA; example.pointB]).1.2 = false
  ∧ PrimFloat.ltb (gps.Bounds [example.pointA; example.pointB]).2
      (gps.Longitude example.pointB) = false.
Proof.
  assert (Hin : example.pointB ∈ [example.pointA; example.pointB]).
  { apply elem_of_cons. right. apply elem_of_cons. by left. }
  split; [exact pointA_pointB_noNaN |]. split; [exact Hin |].
  exact (Bounds_enclose [example.pointA; example.pointB] example.pointB
           pointA_pointB_noNaN Hin).
Defined.

(** X8 on a first point that has no NaN. *)
Lemma Bounds_NaN_only_from_first_point_witness :
  PrimFloat.is_nan (gps.Latitude example.pointA) = false
  ∧ PrimFloat.is_nan (gps.Bounds (example.pointA :: [example.pointB])).1.1.1 = false
  ∧ PrimFloat.is_nan (gps.Bounds (example.pointA :: [example.pointB])).1.1.2 = false.
Proof.
  assert (Hnan : PrimFloat.is_nan (gps.Latitude example.pointA) = false)
    by by vm_compute.
  split; [exact Hnan |].
  pose proof (Bounds_NaN_only_from_first_point example.pointA [example.pointB])
    as (_ & Hlat & _).
  exact (Hlat Hnan).
Defined.

(** X10 on [example.track]. *)
Lemma parseRecords_accounts_for_every_row_witness :
  csv.parseRecords example.withHeader example.track
  = Ok ([example.trackPoint1; example.trackPoint2],
        [csv.mkWarning 3 (ErrInvalidLatitude "north")])
  ∧ ∃ indices,
      csv.findColumnIndices example.withHeader
        (csv.skipRows example.withHeader example.track) = Ok indices
      ∧ StronglySorted (λ a b, csv.rowNum a < csv.rowNum b)
          [csv.mkWarning 3 (ErrInvalidLatitude "north")]
      ∧ (config.RemoveDuplicates (csv.processing example.withHeader) = false →
         (length [example.trackPoint1; example.trackPoint2]
          + length [csv.mkWarning 3 (ErrInvalidLatitude "north")]
          = length (csv.sliceFrom (csv.skipRows example.withHeader example.track) 1))%nat).
Proof.
  split; [exact track_parsed |].
  destruct (parseRecords_accounts_for_every_row example.withHeader example.track
              _ _ track_parsed) as (indices & Hfind & _ & Hsorted & Hcount).
  exists indices. split; [exact Hfind |]. split; [exact Hsorted | exact Hcount].
Defined.

(** X11 on [example.track]. *)
Lemma parseRecords_output_ordered_and_distinct_witness :
  csv.parseRecords example.withHeader example.track
  = Ok ([example.trackPoint1; example.trackPoint2],
        [csv.mkWarning 3 (ErrInvalidLatitude "north")])
  ∧ ∃ indices,
      csv.findColumnIndices example.withHeader
        (csv.skipRows example.withHeader example.track) = Ok indices
      ∧ [example.trackPoint1; example.trackPoint2]
        `sublist_of` validPoints example.withHeader indices
                       (csv.sliceFrom (csv.skipRows example.withHeader example.track) 1).
Proof.
  split; [exact track_parsed |].
  destruct (parseRecords_output_ordered_and_distinct example.withHeader
              example.track _ _ track_parsed) as (indices & Hfind & Hsub & _).
  exists indices. split; [exact Hfind | exact Hsub].
Defined.

(** X12 on a one-row table without header. *)
Lemma parseRecords_without_header_succeeds_witness :
  config.HasHeader (csv.config example.withoutHeader) = false
  ∧ [["x"]] ≠ []
  ∧ ∃ points log, csv.parseRecords example.withoutHeader [["x"]] = Ok (points, log).
Proof.
  assert (Hne : [["x"]] ≠ []) by discriminate.
  split; [reflexivity |]. split; [exact Hne |].
  exact (proj2 (parseRecords_without_header_succeeds example.withoutHeader
                  [["x"]] eq_refl Hne)).
Defined.

(** X13 on a row whose coordinates lie outside the ranges of latitude
    and longitude. *)
Lemma parseRecord_passes_cells_through_witness :
  csv.parseRecord example.withTitle ["1730131445"; "91.5"; " -200 "; " Home "]
    (csv.mkColumnIndices 0 1 2 3 (-1)) 2
  = Ok (gps.mkPoint (time.Unix 1730131445) 91.5%float (-200)%float "Home" "")
  ∧ ∃ tsCell latCell lngCell,
      index ["1730131445"; "91.5"; " -200 "; " Home "] 0 = Ok tsCell
      ∧ index ["1730131445"; "91.5"; " -200 "; " Home "] 1 = Ok latCell
      ∧ index ["1730131445"; "91.5"; " -200 "; " Home "] 2 = Ok lngCell
      ∧ strconv_ParseFloat (strings_TrimSpace latCell) = Some 91.5%float
      ∧ strconv_ParseFloat (strings_TrimSpace lngCell) = Some (-200)%float.
Proof.
  assert (Hok : csv.parseRecord example.withTitle
                  ["1730131445"; "91.5"; " -200 "; " Home "]
                  (csv.mkColumnIndices 0 1 2 3 (-1)) 2
                = Ok (gps.mkPoint (time.Unix 1730131445) 91.5%float (-200)%float
                        "Home" "")) by by vm_compute.
  split; [exact Hok |].
  destruct (parseRecord_passes_cells_through example.withTitle _ _ _ _ Hok)
    as (tsCell & latCell & lngCell & Hts & Hlat & Hlng & _ & Hlatv & Hlngv & _).
  exists tsCell, latCell, lngCell. repeat split; assumption.
Defined.

(** X14 on the header of [example.track]. *)
Lemma header_indices_within_header_witness :
  config.HasHeader (csv.config example.withHeader) = true
  ∧ csv.findColumnIndices example.withHeader example.track
    = Ok (csv.mkColumnIndices 0 1 2 (-1) (-1))
  ∧ ∀ f, fieldIndex f (csv.mkColumnIndices 0 1 2 (-1) (-1))
         < len ["timestamp"; "latitude"; "longitude"; "title"; "description"].
Proof.
  assert (Hfind : csv.findColumnIndices example.withHeader example.track
                  = Ok (csv.mkColumnIndices 0 1 2 (-1) (-1))) by by vm_compute.
  split; [reflexivity |]. split; [exact Hfind |].
  exact (proj1 (header_indices_within_header example.withHeader _ _ _
                  eq_refl Hfind)).
Defined.

(** X15 on [example.track], whose header has a cell [title] while no
    title column is configured. *)
Lemma optional_fields_need_configured_name_witness :
  config.HasHeader (csv.config example.withHeader) = true
  ∧ csv.findColumnIndices example.withHeader example.track
    = Ok (csv.mkColumnIndices 0 1 2 (-1) (-1))
  ∧ config.TitleColumn (csv.config example.withHeader) = ""
  ∧ csv.title (csv.mkColumnIndices 0 1 2 (-1) (-1)) = -1.
Proof.
  assert (Hfind : csv.findColumnIndices example.withHeader example.track
                  = Ok (csv.mkColumnIndices 0 1 2 (-1) (-1))) by by vm_compute.
  split; [reflexivity |]. split; [exact Hfind |]. split; [reflexivity |].
  exact (proj1 (proj1 (optional_fields_need_configured_name example.withHeader
                         _ _ _ eq_refl Hfind) eq_refl)).
Defined.

(** X16 on a key that names the variable MAPS_KEY. *)
Lemma ResolveAPIKey_cases_witness :
  config.APIKey (config.GoogleMaps example.fileConfig) = "${" +:+ "MAPS_KEY" +:+ "}"
  ∧ config.ResolveAPIKey example.environment example.fileConfig
    = if String.eqb (example.environment "MAPS_KEY") ""
      then (example.fileConfig, Some (config.ErrEnvNotSet "MAPS_KEY"))
      else (config.withAPIKey example.fileConfig (example.environment "MAPS_KEY"),
            None).
Proof.
  split; [reflexivity |].
  pose proof (ResolveAPIKey_cases example.environment example.fileConfig)
    as (_ & Hform & _).
  exact (Hform "MAPS_KEY" eq_refl).
Defined.

(** X17 on the same configuration, which names no output file. *)
Lemma Validate_after_ResolveAPIKey_witness :
  config.ResolveAPIKey example.environment example.fileConfig
  = (config.withAPIKey example.fileConfig "secret", None)
  ∧ config.Validate (config.withAPIKey example.fileConfig "secret")
    = Some config.ErrHTMLFileRequired.
Proof.
  assert (Hok : config.ResolveAPIKey example.environment example.fileConfig
                = (config.withAPIKey example.fileConfig "secret", None))
    by by vm_compute.
  split; [exact Hok |].
  pose proof (Validate_after_ResolveAPIKey _ _ _ Hok) as (_ & _ & _ & _ & Hvalid).
  exact Hvalid.
Defined.

(** X19 on the configuration, the flags and the file above, with merge
    sort standing for [sort.Slice]. *)
Lemma main_hands_over_sorted_points_witness :
  sortContract example.mergeSort
  ∧ app.main (λ _, Some example.fileConfig) example.environment example.trackFile
      example.mergeSort (λ _ _ _, true) example.outputFlag
    = app.Generated
        (config.withHTMLFile (config.withAPIKey example.fileConfig "secret")
           "map.html")
        [example.trackPoint1; example.trackPoint2] "map.html"
  ∧ [example.trackPoint1; example.trackPoint2] ≠ []
  ∧ chronological [example.trackPoint1; example.trackPoint2].
Proof.
  assert (Hmain : app.main (λ _, Some example.fileConfig) example.environment
                    example.trackFile example.mergeSort (λ _ _ _, true)
                    example.outputFlag
                  = app.Generated
                      (config.withHTMLFile
                         (config.withAPIKey example.fileConfig "secret") "map.html")
                      [example.trackPoint1; example.trackPoint2] "map.html")
    by by vm_compute.
  split; [exact mergeSort_sortContract |]. split; [exact Hmain |].
  destruct (proj2 (main_hands_over_sorted_points (λ _, Some example.fileConfig)
                     example.environment example.trackFile example.mergeSort
                     (λ _ _ _, true) example.outputFlag mergeSort_sortContract)
              _ _ _ Hmain) as (Hne & Hchron & _).
  split; [exact Hne | exact Hchron].
Defined.

(** X9 on the indices resolved from [example.track]. *)
Lemma parseRecords_never_panics_witness :
  csv.findColumnIndices example.withHeader example.track
  = Ok (csv.mkColumnIndices 0 1 2 (-1) (-1))
  ∧ wellFormedIndices (csv.mkColumnIndices 0 1 2 (-1) (-1))
  ∧ csv.parseRecord example.withHeader ["x"] (csv.mkColumnIndices 0 1 2 (-1) (-1)) 2
    ≠ Panic.
Proof.
  assert (Hfind : csv.findColumnIndices example.withHeader example.track
                  = Ok (csv.mkColumnIndices 0 1 2 (-1) (-1))) by by vm_compute.
  split; [exact Hfind |].
  exact (proj2 (parseRecords_never_panics example.withHeader example.track)
           example.track _ ["x"] 2 Hfind).
Defined.
